(** * Skill matching engine: [compare.py] and [parse_to_json.py]

    A shallow embedding of the matching-and-aggregation script
    ([compare.py], function [main]) and of the skill deduplicator
    ([parse_to_json.py], class [SkillDeduplicator]), with the properties
    the specification states about them.

    Conventions.
    - A Python [str] is a [string]; every [ascii] stands for one code
      point below 256, so [strip] and [lower] follow Python on Latin-1.
    - A Python [int] is a [Z]; a similarity score and a match ratio are
      exact rationals ([Q]).
    - A [dict] is an association list in insertion order (Python keeps
      insertion order, and the exports and the headline depend on it).
    - The embedding model, the pairwise cosine and the data-frame sort are
      library calls: they are the variables of [Section Engine]. *)

From Stdlib Require Import List String Ascii Bool Arith ZArith QArith Lia.
From Stdlib Require Import Permutation Sorted DecimalString.
Import ListNotations.

Local Open Scope string_scope.
Local Open Scope list_scope.

(* ================================================================== *)
(** ** Python string primitives *)
(* ================================================================== *)

Module PyStr.

(** [c.isspace()] on a code point below 256: TAB..CR, FS..US, space,
    NEL (0x85) and NBSP (0xA0). *)
Definition isspace (c : ascii) : bool :=
  let n := nat_of_ascii c in
  (((9 <=? n) && (n <=? 13)) || ((28 <=? n) && (n <=? 32))
   || (n =? 133) || (n =? 160))%nat.

(** [s.lstrip()] *)
Fixpoint lstrip (s : string) : string :=
  match s with
  | EmptyString => EmptyString
  | String c s' => if isspace c then lstrip s' else s
  end.

(** [s.rstrip()] *)
Fixpoint rstrip (s : string) : string :=
  match s with
  | EmptyString => EmptyString
  | String c s' =>
      match rstrip s' with
      | EmptyString => if isspace c then EmptyString else String c EmptyString
      | r => String c r
      end
  end.

(** [s.strip()] *)
Definition strip (s : string) : string := rstrip (lstrip s).

(** [s.split(sep)] for a one-character separator: never an empty list,
    and consecutive separators give empty segments. *)
Fixpoint split (sep : ascii) (s : string) : list string :=
  match s with
  | EmptyString => [EmptyString]
  | String c s' =>
      if Ascii.eqb c sep then EmptyString :: split sep s'
      else match split sep s' with
           | [] => [String c EmptyString]
           | w :: ws => String c w :: ws
           end
  end.

(** [c.lower()] on a code point below 256: A..Z, and the Latin-1 capitals
    0xC0..0xDE without the multiplication sign 0xD7. *)
Definition lower_char (c : ascii) : ascii :=
  let n := nat_of_ascii c in
  if (((65 <=? n) && (n <=? 90))
      || ((192 <=? n) && (n <=? 222) && negb (n =? 215)))%nat
  then ascii_of_nat (n + 32) else c.

(** [s.lower()] *)
Fixpoint lower (s : string) : string :=
  match s with
  | EmptyString => EmptyString
  | String c s' => String (lower_char c) (lower s')
  end.

(** Truth value of a string: [bool(s)], false only for the empty one. *)
Definition truthy (s : string) : bool :=
  match s with EmptyString => false | _ => true end.

(** The first and the last character of a string, when it has one. *)
Definition first_char (s : string) : option ascii :=
  match s with EmptyString => None | String c _ => Some c end.

Fixpoint last_char (s : string) : option ascii :=
  match s with
  | EmptyString => None
  | String c s' => match last_char s' with None => Some c | r => r end
  end.

Definition not_space (o : option ascii) : Prop :=
  match o with None => True | Some c => isspace c = false end.

(** Every character of the string satisfies [p]. *)
Fixpoint all_chars (p : ascii -> bool) (s : string) : bool :=
  match s with
  | EmptyString => true
  | String c s' => p c && all_chars p s'
  end.

(** [c not in s] *)
Definition lacks (c : ascii) (s : string) : bool :=
  all_chars (fun d => negb (Ascii.eqb d c)) s.

Lemma truthy_false s : truthy s = false <-> s = EmptyString.
Proof. destruct s; simpl; split; congruence. Qed.

Lemma truthy_true s : truthy s = true <-> s <> EmptyString.
Proof. destruct s; simpl; split; congruence. Qed.

Lemma lstrip_first s : not_space (first_char (lstrip s)).
Proof.
  induction s as [|c s IH]; simpl; [exact I|].
  destruct (isspace c) eqn:E; [exact IH | simpl; exact E].
Qed.

Lemma rstrip_last s : not_space (last_char (rstrip s)).
Proof.
  induction s as [|c s IH]; simpl; [exact I|].
  destruct (rstrip s) as [|d r] eqn:E.
  - destruct (isspace c) eqn:Ec; simpl; [exact I | exact Ec].
  - simpl. simpl in IH. destruct (last_char r); exact IH.
Qed.

(** A string that already starts with a non-space is left alone. *)
Lemma lstrip_fix s : not_space (first_char s) -> lstrip s = s.
Proof. destruct s as [|c s]; simpl; [reflexivity|]. now intros ->. Qed.

Lemma rstrip_fix s : not_space (last_char s) -> rstrip s = s.
Proof.
  induction s as [|c s IH]; simpl; [reflexivity|].
  destruct (last_char s) as [d|] eqn:E.
  - intros H. rewrite (IH H). destruct s; [discriminate|reflexivity].
  - intros H. destruct s as [|e s]; simpl.
    + now rewrite H.
    + simpl in E. destruct (last_char s); discriminate.
Qed.

Lemma rstrip_first s c r :
  rstrip s = String c r -> first_char s = Some c.
Proof.
  destruct s as [|d s]; simpl; [discriminate|].
  destruct (rstrip s).
  - destruct (isspace d); [discriminate|]. now intros [= -> _].
  - now intros [= -> _].
Qed.

Lemma strip_first s : not_space (first_char (strip s)).
Proof.
  unfold strip. destruct (rstrip (lstrip s)) as [|c r] eqn:E; [exact I|].
  apply rstrip_first in E. pose proof (lstrip_first s) as H.
  rewrite E in H. exact H.
Qed.

Lemma strip_last s : not_space (last_char (strip s)).
Proof. apply rstrip_last. Qed.

(** [strip] is idempotent: a stripped string is a fixed point. *)
Lemma strip_idem s : strip (strip s) = strip s.
Proof.
  unfold strip at 1.
  rewrite (lstrip_fix (strip s) (strip_first s)).
  apply rstrip_fix, strip_last.
Qed.

Lemma strip_empty : strip EmptyString = EmptyString.
Proof. reflexivity. Qed.

Lemma split_not_nil sep s : split sep s <> [].
Proof.
  destruct s as [|c s]; simpl; [discriminate|].
  destruct (Ascii.eqb c sep); [discriminate|].
  destruct (split sep s); discriminate.
Qed.

Example split_commas :
  split "," "Python, SQL,,Go" = ["Python"; " SQL"; ""; "Go"].
Proof. reflexivity. Qed.

Example split_of_empty : split ";" "" = [""].
Proof. reflexivity. Qed.

Example strip_both_ends : strip "  data  science " = "data  science".
Proof. reflexivity. Qed.

Example lower_mixed : lower "PyThon 3" = "python 3".
Proof. reflexivity. Qed.

(** Stripping and splitting only ever remove characters. *)
Lemma all_chars_lstrip p s :
  all_chars p s = true -> all_chars p (lstrip s) = true.
Proof.
  induction s as [|c s IH]; simpl; [reflexivity|].
  intros H. apply andb_true_iff in H. destruct H as [Hc Hs].
  destruct (isspace c); [now apply IH|]. simpl. now rewrite Hc, Hs.
Qed.

Lemma all_chars_rstrip p s :
  all_chars p s = true -> all_chars p (rstrip s) = true.
Proof.
  induction s as [|c s IH]; simpl; [reflexivity|].
  intros H. apply andb_true_iff in H. destruct H as [Hc Hs].
  specialize (IH Hs). destruct (rstrip s) as [|d r].
  - destruct (isspace c); [reflexivity|]. simpl. now rewrite Hc.
  - change (all_chars p (String c (String d r)))
      with (p c && all_chars p (String d r)). now rewrite Hc, IH.
Qed.

Lemma all_chars_strip p s :
  all_chars p s = true -> all_chars p (strip s) = true.
Proof. intros H. unfold strip. now apply all_chars_rstrip, all_chars_lstrip. Qed.

Lemma all_chars_split p sep s :
  all_chars p s = true ->
  Forall (fun w => all_chars p w = true) (split sep s).
Proof.
  induction s as [|c s IH]; simpl; intros H.
  - now repeat constructor.
  - apply andb_true_iff in H. destruct H as [Hc Hs]. specialize (IH Hs).
    destruct (Ascii.eqb c sep); [now constructor|].
    destruct (split sep s) as [|w ws]; [now repeat constructor; simpl; rewrite Hc|].
    inversion IH as [|? ? Hw Hws]; subst.
    constructor; [|exact Hws]. simpl. now rewrite Hc, Hw.
Qed.

(** No segment of a split holds the separator. *)
Lemma split_lacks sep s :
  Forall (fun w => lacks sep w = true) (split sep s).
Proof.
  unfold lacks. induction s as [|c s IH]; simpl.
  - now repeat constructor.
  - destruct (Ascii.eqb c sep) eqn:E; [now constructor|].
    destruct (split sep s) as [|w ws]; [now repeat constructor; simpl; rewrite E|].
    inversion IH as [|? ? Hw Hws]; subst.
    constructor; [|exact Hws]. simpl. now rewrite E, Hw.
Qed.

(** The segments of a split all satisfy [p] exactly when every character
    is the separator or satisfies [p]. *)
Lemma forallb_split p sep s :
  forallb (all_chars p) (split sep s)
  = all_chars (fun c => p c || Ascii.eqb c sep) s.
Proof.
  induction s as [|c s IH]; simpl; [reflexivity|].
  destruct (Ascii.eqb c sep) eqn:E.
  - simpl. rewrite IH. now rewrite orb_true_r.
  - rewrite orb_false_r, <- IH.
    pose proof (split_not_nil sep s) as Hn.
    destruct (split sep s) as [|w ws]; [congruence|].
    simpl. now rewrite andb_assoc.
Qed.

Lemma lstrip_all_space s :
  all_chars isspace s = true -> lstrip s = EmptyString.
Proof.
  induction s as [|c s IH]; simpl; [reflexivity|].
  intros H. apply andb_true_iff in H. destruct H as [Hc Hs].
  rewrite Hc. now apply IH.
Qed.

Lemma rstrip_empty_all_space s :
  rstrip s = EmptyString -> all_chars isspace s = true.
Proof.
  induction s as [|c s IH]; simpl; [reflexivity|].
  destruct (rstrip s); [|discriminate].
  destruct (isspace c); [|discriminate]. intros _. now apply IH.
Qed.

Lemma lstrip_all_space_inv s :
  all_chars isspace (lstrip s) = true -> all_chars isspace s = true.
Proof.
  induction s as [|c s IH]; simpl; [reflexivity|].
  destruct (isspace c) eqn:E; simpl; [exact IH|].
  rewrite E. discriminate.
Qed.

(** A string strips to nothing exactly when it is all white space. *)
Lemma strip_empty_all_space s :
  strip s = EmptyString <-> all_chars isspace s = true.
Proof.
  unfold strip. split.
  - intros H. now apply lstrip_all_space_inv, rstrip_empty_all_space.
  - intros H. now rewrite (lstrip_all_space s H).
Qed.

Lemma truthy_strip s : truthy (strip s) = negb (all_chars isspace s).
Proof.
  destruct (all_chars isspace s) eqn:E.
  - apply strip_empty_all_space in E. now rewrite E.
  - simpl. apply truthy_true. intros H.
    apply strip_empty_all_space in H. congruence.
Qed.

End PyStr.

(* ================================================================== *)
(** ** [compare.py]: data model, phrase normalizer, counters and files *)
(* ================================================================== *)

Module Compare.
Import PyStr.

(** The value of a skill-bearing field of a job record: a list of
    strings or a delimiter-separated string (the data model's two
    shapes). [str(x)] is the identity on both. *)
Inductive field_value : Type :=
| FList (items : list string)
| FScalar (s : string).

(** The four skill-bearing keys, in the order [main] walks them. *)
Inductive field : Type :=
| requirements
| technologies_expected
| technologies_optional
| specializations.

Definition FIELDS : list field :=
  [requirements; technologies_expected; technologies_optional;
   specializations].

(** A job record; [None] is an absent key. *)
Record job : Type := mkJob {
  f_title : option string;
  f_company : option string;
  f_requirements : option field_value;
  f_technologies_expected : option field_value;
  f_technologies_optional : option field_value;
  f_specializations : option field_value
}.

(** [job.get(field)] *)
Definition job_get (j : job) (f : field) : option field_value :=
  match f with
  | requirements => f_requirements j
  | technologies_expected => f_technologies_expected j
  | technologies_optional => f_technologies_optional j
  | specializations => f_specializations j
  end.

(** [if val:] -- an absent key, an empty list and an empty string are
    all false. *)
Definition val_truthy (v : option field_value) : bool :=
  match v with
  | None => false
  | Some (FList []) => false
  | Some (FList (_ :: _)) => true
  | Some (FScalar s) => truthy s
  end.

(** The [else] branch: split on [';'], then every part on [','], keeping
    the stripped tokens that are not empty.
<<
    items = []
    for part in str(val).split(';'):
        items.extend([x.strip() for x in part.split(',') if x.strip()])
>> *)
Definition scalar_items (s : string) : list string :=
  fold_left
    (fun items part =>
       items ++ map strip (filter (fun x => truthy (strip x))
                                  (split "," part)))
    (split ";" s) [].

(** [[str(x).strip() for x in items if x and str(x).strip()]] *)
Definition cleaned (items : list string) : list string :=
  map strip (filter (fun x => truthy x && truthy (strip x)) items).

(** One turn of the loop over the fields. *)
Definition extend_with_field (j : job) (job_skill_texts : list string)
    (f : field) : list string :=
  let val := job_get j f in
  if val_truthy val then
    match val with
    | Some (FList items) => job_skill_texts ++ cleaned items
    | Some (FScalar s) => job_skill_texts ++ cleaned (scalar_items s)
    | None => job_skill_texts
    end
  else job_skill_texts.

(** The list [job_skill_texts] that [main] builds for one job. *)
Definition job_skill_texts (j : job) : list string :=
  fold_left (extend_with_field j) FIELDS [].

(** *** The normalizer as the specification words it *)

Definition drop_empty (l : list string) : list string :=
  filter truthy l.

(** A list is used as it is, every element trimmed; a scalar string is
    split on semicolons, every segment on commas, every token trimmed;
    empty tokens are dropped. *)
Definition normalize_field (v : option field_value) : list string :=
  match v with
  | None => []
  | Some (FList items) => drop_empty (map strip items)
  | Some (FScalar s) =>
      drop_empty (map strip (flat_map (split ",") (split ";" s)))
  end.

Definition normalize_posting (j : job) : list string :=
  normalize_field (f_requirements j)
  ++ normalize_field (f_technologies_expected j)
  ++ normalize_field (f_technologies_optional j)
  ++ normalize_field (f_specializations j).

(** A phrase is well formed when it is not empty and has no white space
    at either end. *)
Definition phrase_ok (p : string) : Prop :=
  p <> EmptyString /\ strip p = p.

(** White space, comma or semicolon. *)
Definition is_filler (c : ascii) : bool :=
  isspace c || Ascii.eqb c "," || Ascii.eqb c ";".

(** A field value that cannot give a phrase: an absent key, a list of
    strings that are all white space, or a string made of white space
    and delimiters only. *)
Definition field_blank (v : option field_value) : bool :=
  match v with
  | None => true
  | Some (FList items) => forallb (all_chars isspace) items
  | Some (FScalar s) => all_chars is_filler s
  end.

(** The value is not a list. *)
Definition not_list (v : option field_value) : bool :=
  match v with
  | Some (FList _) => false
  | _ => true
  end.

(** *** Exceptions, counters and the match matrix *)

(** The exceptions the embedded code can raise. *)
Inductive exn : Type :=
| ValueError
| ZeroDivisionError
| IndexError
| KeyError.

Inductive result (A : Type) : Type :=
| Ok (a : A)
| Raise (e : exn).
Arguments Ok {A} a.
Arguments Raise {A} e.

Definition rbind {A B} (r : result A) (k : A -> result B) : result B :=
  match r with Ok a => k a | Raise e => Raise e end.

Notation "x <- c ;; k" := (rbind c (fun x => k))
  (at level 61, c at next level, right associativity).

(** [a / b] on integers: true division, a quotient or [ZeroDivisionError].
    The quotient is the exact rational (Python rounds it to a double). *)
Definition py_truediv (a b : Z) : result Q :=
  if (b =? 0)%Z then Raise ZeroDivisionError
  else Ok (inject_Z a / inject_Z b)%Q.

(** [job_skill_counter]: a dict from phrase text to count, in insertion
    order. *)
Definition counter : Type := list (string * Z).

(** [d.get(k, default)] *)
Fixpoint dict_get (d : counter) (k : string) (default : Z) : Z :=
  match d with
  | [] => default
  | (k', v) :: d' => if String.eqb k' k then v else dict_get d' k default
  end.

(** [d[k] = v]: an existing key keeps its place, a new one goes last. *)
Fixpoint dict_set (d : counter) (k : string) (v : Z) : counter :=
  match d with
  | [] => [(k, v)]
  | (k', v') :: d' =>
      if String.eqb k' k then (k', v) :: d'
      else (k', v') :: dict_set d' k v
  end.

(** [job_skill_counter[skill] = job_skill_counter.get(skill, 0) + 1] *)
Definition count_skill (c : counter) (skill : string) : counter :=
  dict_set c skill (dict_get c skill 0 + 1)%Z.

(** [for skill in job_skill_texts: ...] *)
Definition count_skills (c : counter) (texts : list string) : counter :=
  fold_left count_skill texts c.

(** One row of [job_skill_matches.csv]. *)
Record job_result : Type := mkResult {
  job_title : string;
  company : string;
  matched_job_skills : Z;
  total_job_skills : Z;
  match_ratio : Q
}.

Definition SIMILARITY_THRESHOLD : Q := 1 # 2.

(** [matrix >= SIMILARITY_THRESHOLD], entry by entry. *)
Definition ge_threshold (matrix : list (list Q)) : list (list bool) :=
  map (map (fun s => Qle_bool SIMILARITY_THRESHOLD s)) matrix.

(** [m.any(dim=1)]: one flag per row. *)
Definition any_dim1 (m : list (list bool)) : list bool :=
  map (existsb (fun b => b)) m.

(** [m.any(dim=0)] on a matrix with [ncols] columns: one flag per column
    (all false when there is no row). *)
Definition any_dim0 (ncols : nat) (m : list (list bool)) : list bool :=
  map (fun c => existsb (fun row => nth c row false) m) (seq 0 ncols).

(** [int(b)] *)
Definition int_of_bool (b : bool) : Z := if b then 1%Z else 0%Z.

(** [flags.sum().item()] *)
Definition sum_flags (flags : list bool) : Z :=
  fold_right (fun b acc => (int_of_bool b + acc)%Z) 0%Z flags.

(** [[a + int(b) for a, b in zip(counts, flags)]]: as long as the shorter
    of the two. *)
Definition add_flags (counts : list Z) (flags : list bool) : list Z :=
  map (fun ab => (fst ab + int_of_bool (snd ab))%Z) (combine counts flags).

(** [job.get(key, "")] *)
Definition get_or_empty (o : option string) : string :=
  match o with Some s => s | None => EmptyString end.

(** *** After the loop: headline facts and files *)

(** One entry of [extracted_skills.json]: a name, and for a soft skill
    possibly a description. *)
Record skill_entry : Type := mkSkill {
  name : string;
  description : option string
}.

Record skills_file : Type := mkSkills {
  technologies : list skill_entry;
  soft_skills : list skill_entry
}.

(** What [main] writes: a table of job results, a two-column table of
    counts, or the summary (the top study skill with its count, and the
    top job skill with its count when there is one). *)
Inductive file_content : Type :=
| ResultsCsv (rows : list job_result)
| CountsCsv (rows : list (string * Z))
| SummaryTxt (top_study : string * Z) (top_job : option (string * Z)).

Definition filesystem : Type := list (string * file_content).

(** Code that writes files and may raise. *)
Definition io (A : Type) : Type := filesystem -> filesystem * result A.

Definition io_bind {A B} (c : io A) (k : A -> io B) : io B :=
  fun fs =>
    match c fs with
    | (fs', Ok a) => k a fs'
    | (fs', Raise e) => (fs', Raise e)
    end.

Notation "x <~ c ;; k" := (io_bind c (fun x => k))
  (at level 61, c at next level, right associativity).

Definition lift {A} (r : result A) : io A := fun fs => (fs, r).

Definition write_file (path : string) (c : file_content) : io unit :=
  fun fs => (fs ++ [(path, c)], Ok tt).

Definition OUTPUT_CSV : string := "job_skill_matches.csv".

(** The content last written under a path, if any. *)
Definition read_file (path : string) (fs : filesystem)
  : option file_content :=
  option_map snd
    (find (fun f => String.eqb (fst f) path) (rev fs)).

(** [pd.Series(values).idxmax()]: the first position of the greatest
    value; [ValueError] on an empty series. *)
Fixpoint argmax_from (best_i : nat) (best : Z) (i : nat) (l : list Z)
  : nat :=
  match l with
  | [] => best_i
  | x :: l' =>
      if (best <? x)%Z then argmax_from i x (S i) l'
      else argmax_from best_i best (S i) l'
  end.

Definition idxmax (values : list Z) : result nat :=
  match values with
  | [] => Raise ValueError
  | x :: l => Ok (argmax_from 0 x 1 l)
  end.

(** [l[i]] *)
Definition list_item {A} (l : list A) (i : nat) : result A :=
  match nth_error l i with Some a => Ok a | None => Raise IndexError end.

(** [d[k]] *)
Fixpoint dict_item (d : counter) (k : string) : result Z :=
  match d with
  | [] => Raise KeyError
  | (k', v) :: d' => if String.eqb k' k then Ok v else dict_item d' k
  end.

(** [max(d, key=d.get)]: the first key, in insertion order, with the
    greatest value; [ValueError] on an empty dict. *)
Fixpoint max_from (keyf : string -> Z) (best : string) (l : list string)
  : string :=
  match l with
  | [] => best
  | k :: l' =>
      if (keyf best <? keyf k)%Z then max_from keyf k l'
      else max_from keyf best l'
  end.

Definition py_max (d : counter) : result string :=
  match map fst d with
  | [] => Raise ValueError
  | k :: l => Ok (max_from (fun k => dict_get d k 0) k l)
  end.

(** [pd.DataFrame({a: names, b: counts})]: the columns must be equally
    long. *)
Definition data_frame (names : list string) (counts : list Z)
  : result (list (string * Z)) :=
  if (List.length names =? List.length counts)%nat
  then Ok (combine names counts)
  else Raise ValueError.

(** The study vocabulary: technology names, then for every soft skill
    its description when it has one and its name otherwise. *)
Definition study_skills_of (skills_data : skills_file) : list string :=
  let tech_skills := map name (technologies skills_data) in
  let soft_skills :=
    map (fun s => match description s with
                  | Some d => d
                  | None => name s
                  end)
        (soft_skills skills_data) in
  tech_skills ++ soft_skills.

(** The guarded second headline: [None] is the line
    "No job skills found in the dataset." *)
Definition most_needed (c : counter) : result (option (string * Z)) :=
  match c with
  | [] => Ok None
  | _ :: _ =>
      most_needed_job_skill <- py_max c ;;
      most_needed_job_skill_count <- dict_item c most_needed_job_skill ;;
      Ok (Some (most_needed_job_skill, most_needed_job_skill_count))
  end.



(** *** Sorting: what is asked of a sort, and a stable sort *)

(** The count column is in descending order. *)
Definition descending (rows : list (string * Z)) : Prop :=
  StronglySorted (fun a b => (b <= a)%Z) (map snd rows).

(** Rows with equal counts keep the order they had in [rows]. *)
Definition keeps_tie_order (rows out : list (string * Z)) : Prop :=
  forall c : Z,
    filter (fun r => (snd r =? c)%Z) out
    = filter (fun r => (snd r =? c)%Z) rows.

(** The descending sort that is stable: insertion from the right, a row
    going in front of the rows that do not have a greater count. *)
Fixpoint insert_desc (x : string * Z) (rows : list (string * Z))
  : list (string * Z) :=
  match rows with
  | [] => [x]
  | y :: rest =>
      if (snd x <? snd y)%Z then y :: insert_desc x rest else x :: rows
  end.

Definition stable_sort_desc (rows : list (string * Z))
  : list (string * Z) :=
  fold_right insert_desc [] rows.


(** *** A small embedding model, to run the engine on examples *)

(** The vector of a phrase is its lower-cased text; the model counts the
    calls it has served, which the vectors do not depend on. *)
Definition text_encode (texts : list string) (calls : nat)
  : list string * nat :=
  (map lower texts, S calls).

(** Similarity 1 for equal vectors, 1/2 when one is a proper prefix of
    the other, 0 otherwise. *)
Definition text_cos (a b : string) : Q :=
  if String.eqb a b then 1
  else if String.prefix a b || String.prefix b a then 1 # 2
  else 0.

Definition demo_skills : skills_file :=
  mkSkills [mkSkill "Python" None; mkSkill "SQL" None]
           [mkSkill "Teamwork" (Some "Team collaboration")].

Definition demo_jobs : list job :=
  [mkJob (Some "Data engineer") (Some "Acme")
         (Some (FScalar "Python, SQL server; Python"))
         (Some (FList ["Docker"; " python "]))
         None None;
   mkJob (Some "Clerk") None None None None (Some (FScalar " ; , "));
   mkJob None (Some "Initech")
         (Some (FList ["Team collaboration"; "Excel"]))
         None None None].

(* ================================================================== *)
(** ** [compare.py]: [main], over the library calls it makes *)
(* ================================================================== *)

Section Engine.

(** An embedding vector, and the embedding model with whatever state it
    carries between calls. *)
Variable vec : Type.
Variable model : Type.

(** [model.encode(texts, ...)]: the vectors, and the model afterwards. *)
Variable encode : list string -> model -> list vec * model.

(** The cosine similarity of two vectors, as [util.cos_sim] computes it
    for every pair. *)
Variable cos : vec -> vec -> Q.

(** [df.sort_values(by=<count column>, ascending=False)] on a two-column
    frame, with the default [kind]. *)
Variable sort_values : list (string * Z) -> list (string * Z).

(** [util.cos_sim(a, b)]: entry (i, j) is the cosine of [a[i]], [b[j]]. *)
Definition cos_sim (a b : list vec) : list (list Q) :=
  map (fun x => map (cos x) b) a.

(** The accumulators of [main]'s loop, with the model. *)
Record state : Type := mkState {
  results : list job_result;
  study_skill_match_counts : list Z;
  job_skill_counter : counter;
  provider : model
}.

(** The body of [for job in jobs_data]. *)
Definition process_job (study_embeddings : list vec) (st : state)
    (j : job) : result state :=
  let job_title := get_or_empty (f_title j) in
  let company := get_or_empty (f_company j) in
  let texts := job_skill_texts j in
  let job_skill_counter' := count_skills (job_skill_counter st) texts in
  match texts with
  | [] =>
      Ok (mkState
            (results st ++ [mkResult job_title company 0 0 0])
            (study_skill_match_counts st)
            job_skill_counter'
            (provider st))
  | _ :: _ =>
      let (job_embeddings, provider') := encode texts (provider st) in
      let similarity_matrix := cos_sim job_embeddings study_embeddings in
      let match_counts :=
        sum_flags (any_dim1 (ge_threshold similarity_matrix)) in
      let study_skill_matches :=
        any_dim0 (List.length study_embeddings)
                 (ge_threshold similarity_matrix) in
      let study_skill_match_counts' :=
        add_flags (study_skill_match_counts st) study_skill_matches in
      let total_job_skills := Z.of_nat (List.length texts) in
      match_ratio <-
        (if (0 <? total_job_skills)%Z
         then py_truediv match_counts total_job_skills
         else Ok 0%Q) ;;
      Ok (mkState
            (results st
               ++ [mkResult job_title company match_counts
                            total_job_skills match_ratio])
            study_skill_match_counts'
            job_skill_counter'
            provider')
  end.

(** The whole loop. *)
Fixpoint run_jobs (study_embeddings : list vec) (st : state)
    (jobs_data : list job) : result state :=
  match jobs_data with
  | [] => Ok st
  | j :: rest =>
      st' <- process_job study_embeddings st j ;;
      run_jobs study_embeddings st' rest
  end.

(** The state the loop starts from. *)
Definition initial_state (total_study_skills : nat) (m : model) : state :=
  mkState [] (repeat 0%Z total_study_skills) [] m.

(** Everything [main] does after the two input files are loaded. *)
Definition main (skills_data : skills_file) (jobs_data : list job)
    (m : model) : io unit :=
  let study_skills := study_skills_of skills_data in
  let total_study_skills := List.length study_skills in
  let (study_embeddings, m1) := encode study_skills m in
  st <~ lift (run_jobs study_embeddings
                (initial_state total_study_skills m1) jobs_data) ;;
  _ <~ write_file OUTPUT_CSV (ResultsCsv (results st)) ;;
  max_study_idx <~ lift (idxmax (study_skill_match_counts st)) ;;
  max_study_skill <~ lift (list_item study_skills max_study_idx) ;;
  max_study_count <~
    lift (list_item (study_skill_match_counts st) max_study_idx) ;;
  top_job <~ lift (most_needed (job_skill_counter st)) ;;
  _ <~ write_file "job_skill_summary.txt"
         (SummaryTxt (max_study_skill, max_study_count) top_job) ;;
  study_skill_df <~
    lift (data_frame study_skills (study_skill_match_counts st)) ;;
  _ <~ write_file "study_skill_match_counts.csv"
         (CountsCsv (sort_values study_skill_df)) ;;
  write_file "job_skill_frequencies.csv"
    (CountsCsv (sort_values (job_skill_counter st))).

(** *** Contracts of the library calls *)

(** The embedding model returns one vector per phrase. *)
Definition encode_contract : Prop :=
  forall texts m, List.length (fst (encode texts m)) = List.length texts.


(** The phrase vectors of a posting (none when it has no phrase: the
    model is not called then). *)
Definition posting_vectors (m : model) (j : job) : list vec :=
  match job_skill_texts j with
  | [] => []
  | texts => fst (encode texts m)
  end.

(** A pair is a match when its similarity reaches the threshold. *)
Definition is_match (a b : vec) : bool :=
  Qle_bool SIMILARITY_THRESHOLD (cos a b).


(** The state a posting leaves behind, spelled out: the loop body never
    raises, because the division is only reached with a positive
    divisor. *)
Definition next_state (study_embeddings : list vec) (st : state)
    (j : job) : state :=
  let texts := job_skill_texts j in
  let vs := posting_vectors (provider st) j in
  let matched :=
    sum_flags (map (fun a => existsb (is_match a) study_embeddings) vs) in
  let total := Z.of_nat (List.length texts) in
  mkState
    (results st
       ++ [mkResult (get_or_empty (f_title j)) (get_or_empty (f_company j))
             matched total
             (if (0 <? total)%Z then (inject_Z matched / inject_Z total)%Q
              else 0%Q)])
    (match texts with
     | [] => study_skill_match_counts st
     | _ =>
         add_flags (study_skill_match_counts st)
           (map (fun sk => existsb (fun a => is_match a sk) vs)
                study_embeddings)
     end)
    (count_skills (job_skill_counter st) texts)
    (match texts with
     | [] => provider st
     | _ => snd (encode texts (provider st))
     end).


(** *** Facts about the phrase normalizer *)

Lemma map_strip_filter (l : list string) :
  map strip (filter (fun x => truthy (strip x)) l)
  = drop_empty (map strip l).
Proof.
  unfold drop_empty. induction l as [|x l IH]; simpl; [reflexivity|].
  destruct (truthy (strip x)); simpl; now rewrite IH.
Qed.

Lemma truthy_and_strip (x : string) :
  truthy x && truthy (strip x) = truthy (strip x).
Proof. destruct x; reflexivity. Qed.

Lemma cleaned_spec (l : list string) : cleaned l = drop_empty (map strip l).
Proof.
  unfold cleaned. rewrite <- map_strip_filter. f_equal.
  apply filter_ext. intros x. apply truthy_and_strip.
Qed.

Lemma drop_empty_app (l1 l2 : list string) :
  drop_empty (l1 ++ l2) = drop_empty l1 ++ drop_empty l2.
Proof. apply filter_app. Qed.

Lemma drop_empty_ok (l : list string) :
  Forall phrase_ok (drop_empty (map strip l)).
Proof.
  apply Forall_forall. intros p Hp. unfold drop_empty in Hp.
  apply filter_In in Hp. destruct Hp as [Hin Ht].
  apply in_map_iff in Hin. destruct Hin as [x [<- _]].
  split; [now apply truthy_true | apply strip_idem].
Qed.

(** Cleaning tokens that are already clean changes nothing. *)
Lemma cleaned_fix (l : list string) : Forall phrase_ok l -> cleaned l = l.
Proof.
  rewrite cleaned_spec. unfold drop_empty.
  induction 1 as [|p l [Hne Hs] _ IH]; simpl; [reflexivity|].
  rewrite Hs. apply truthy_true in Hne. rewrite Hne. now rewrite IH.
Qed.

Lemma scalar_items_acc (parts : list string) (acc : list string) :
  fold_left
    (fun items part =>
       items ++ map strip (filter (fun x => truthy (strip x))
                                  (split "," part)))
    parts acc
  = acc ++ drop_empty (map strip (flat_map (split ",") parts)).
Proof.
  revert acc. induction parts as [|p parts IH]; intros acc; simpl.
  - now rewrite app_nil_r.
  - rewrite IH, map_strip_filter, map_app, drop_empty_app.
    now rewrite app_assoc.
Qed.

Lemma scalar_items_spec (s : string) :
  scalar_items s = drop_empty (map strip (flat_map (split ",") (split ";" s))).
Proof. unfold scalar_items. now rewrite scalar_items_acc. Qed.

Lemma normalize_field_ok (v : option field_value) :
  Forall phrase_ok (normalize_field v).
Proof.
  destruct v as [[items|s]|]; simpl;
    [apply drop_empty_ok | apply drop_empty_ok | constructor].
Qed.

(** A falsy value contributes nothing under either reading. *)
Lemma normalize_falsy (v : option field_value) :
  val_truthy v = false -> normalize_field v = [].
Proof.
  destruct v as [[[|x l]|s]|]; simpl; try reflexivity; try discriminate.
  intros H. apply truthy_false in H. now subst.
Qed.

Lemma extend_with_field_spec (j : job) (acc : list string) (f : field) :
  extend_with_field j acc f = acc ++ normalize_field (job_get j f).
Proof.
  unfold extend_with_field.
  destruct (val_truthy (job_get j f)) eqn:E.
  - destruct (job_get j f) as [[items|s]|]; simpl.
    + now rewrite cleaned_spec.
    + rewrite scalar_items_spec, cleaned_fix; [reflexivity|].
      apply drop_empty_ok.
    + discriminate.
  - rewrite (normalize_falsy _ E). now rewrite app_nil_r.
Qed.

Example texts_of_mixed_job :
  job_skill_texts
    (mkJob (Some "Dev") None
           (Some (FScalar " Python, SQL ;; Go,"))
           (Some (FList ["  Docker "; ""; "  "; "AWS"]))
           None
           (Some (FScalar "")))
  = ["Python"; "SQL"; "Go"; "Docker"; "AWS"].
Proof. reflexivity. Qed.

(** C8. The phrase list built for a posting is the concatenation, in the
    order requirements, technologies_expected, technologies_optional,
    specializations, of each field's phrases -- a list's elements
    trimmed, a string split on semicolons and then on commas with every
    token trimmed, empty tokens dropped -- and every phrase of the result
    is non-empty and trimmed. *)
Theorem job_skill_texts_normalized (j : job) :
  job_skill_texts j = normalize_posting j
  /\ Forall phrase_ok (job_skill_texts j).
Proof.
  assert (E : job_skill_texts j = normalize_posting j).
  { unfold job_skill_texts, FIELDS, normalize_posting. simpl.
    rewrite !extend_with_field_spec. simpl.
    now rewrite <- !app_assoc. }
  split; [exact E|].
  rewrite E. unfold normalize_posting.
  repeat (apply Forall_app; split); apply normalize_field_ok.
Qed.

(** *** Facts about the counter *)


Lemma dict_get_set_same (d : counter) (k : string) (v dflt : Z) :
  dict_get (dict_set d k v) k dflt = v.
Proof.
  induction d as [|[k' v'] d IH]; simpl.
  - now rewrite String.eqb_refl.
  - destruct (String.eqb k' k) eqn:E; simpl; rewrite E; [reflexivity|exact IH].
Qed.

Lemma dict_get_set_other (d : counter) (k k' : string) (v dflt : Z) :
  k' <> k -> dict_get (dict_set d k v) k' dflt = dict_get d k' dflt.
Proof.
  intros Hne. induction d as [|[k0 v0] d IH]; simpl.
  - destruct (String.eqb_spec k k'); [congruence|reflexivity].
  - destruct (String.eqb_spec k0 k) as [->|Hk]; simpl.
    + destruct (String.eqb_spec k k'); [congruence|reflexivity].
    + destruct (String.eqb k0 k'); [reflexivity|exact IH].
Qed.

Lemma dict_set_keys (d : counter) (k : string) (v : Z) :
  map fst (dict_set d k v)
  = if existsb (String.eqb k) (map fst d) then map fst d
    else map fst d ++ [k].
Proof.
  induction d as [|[k' v'] d IH]; simpl; [reflexivity|].
  rewrite (String.eqb_sym k k').
  destruct (String.eqb k' k) eqn:E; simpl; [reflexivity|].
  rewrite IH. now destruct (existsb (String.eqb k) (map fst d)).
Qed.

Lemma dict_set_nodup (d : counter) (k : string) (v : Z) :
  NoDup (map fst d) -> NoDup (map fst (dict_set d k v)).
Proof.
  intros H. rewrite dict_set_keys.
  destruct (existsb (String.eqb k) (map fst d)) eqn:E; [exact H|].
  apply NoDup_app; [exact H | repeat constructor; intros [] | ].
  intros x Hx [<-|[]].
  assert (Hex : existsb (String.eqb k) (map fst d) = true).
  { apply existsb_exists. exists k. split; [exact Hx|apply String.eqb_refl]. }
  congruence.
Qed.




Lemma count_skills_nodup (texts : list string) (c : counter) :
  NoDup (map fst c) -> NoDup (map fst (count_skills c texts)).
Proof.
  unfold count_skills. revert c.
  induction texts as [|t texts IH]; intros c H; simpl; [exact H|].
  apply IH. now apply dict_set_nodup.
Qed.

Lemma count_skills_get (texts : list string) (c : counter) (k : string) :
  dict_get (count_skills c texts) k 0
  = (dict_get c k 0 + Z.of_nat (count_occ string_dec texts k))%Z.
Proof.
  unfold count_skills. revert c.
  induction texts as [|t texts IH]; intros c; simpl fold_left.
  - simpl. lia.
  - rewrite IH. unfold count_skill at 1. simpl count_occ.
    destruct (string_dec t k) as [->|Hne].
    + rewrite dict_get_set_same. lia.
    + rewrite dict_get_set_other by congruence. lia.
Qed.

Lemma count_skills_app (c : counter) (l1 l2 : list string) :
  count_skills c (l1 ++ l2) = count_skills (count_skills c l1) l2.
Proof. unfold count_skills. apply fold_left_app. Qed.

(** *** Facts about one turn of the loop *)

Lemma any_dim1_matches (a b : list vec) :
  any_dim1 (ge_threshold (cos_sim a b))
  = map (fun x => existsb (is_match x) b) a.
Proof.
  unfold any_dim1, ge_threshold, cos_sim. rewrite !map_map.
  apply map_ext. intros x. rewrite !map_map.
  induction b as [|y b IH]; simpl; [reflexivity|]. now rewrite IH.
Qed.

Lemma nth_match_row (x : vec) (b : list vec) (c : nat) (sk : vec) :
  nth_error b c = Some sk ->
  nth c (map (fun s => Qle_bool SIMILARITY_THRESHOLD s) (map (cos x) b))
      false
  = is_match x sk.
Proof.
  revert c. induction b as [|y b IH]; intros [|c]; simpl; try discriminate.
  - now intros [= ->].
  - apply IH.
Qed.

Lemma any_dim0_matches (a b : list vec) :
  any_dim0 (List.length b) (ge_threshold (cos_sim a b))
  = map (fun sk => existsb (fun x => is_match x sk) a) b.
Proof.
  unfold any_dim0.
  apply nth_error_ext. intros c.
  rewrite !nth_error_map.
  destruct (nth_error b c) as [sk|] eqn:E.
  - assert (Hc : (c < List.length b)%nat)
      by (apply nth_error_Some; congruence).
    rewrite nth_error_seq. 
    replace (c <? List.length b)%nat with true
      by (symmetry; now apply Nat.ltb_lt).
    simpl. f_equal.
    unfold ge_threshold, cos_sim. rewrite !map_map.
    induction a as [|x a IH]; simpl; [reflexivity|].
    rewrite IH. f_equal. now apply nth_match_row.
  - apply nth_error_None in E.
    rewrite nth_error_seq.
    replace (c <? List.length b)%nat with false
      by (symmetry; apply Nat.ltb_ge; lia).
    reflexivity.
Qed.

Lemma process_job_eq (study_embeddings : list vec) (st : state) (j : job) :
  process_job study_embeddings st j = Ok (next_state study_embeddings st j).
Proof.
  unfold process_job, next_state, posting_vectors.
  destruct (job_skill_texts j) as [|t texts] eqn:Et.
  - reflexivity.
  - destruct (encode (t :: texts) (provider st)) as [vs m'] eqn:Ee.
    cbn [fst snd].
    rewrite any_dim1_matches, any_dim0_matches.
    replace (0 <? Z.of_nat (List.length (t :: texts)))%Z with true
      by (symmetry; apply Z.ltb_lt; simpl List.length; lia).
    unfold py_truediv.
    replace (Z.of_nat (List.length (t :: texts)) =? 0)%Z with false
      by (symmetry; apply Z.eqb_neq; simpl List.length; lia).
    reflexivity.
Qed.

(** *** Facts about the whole loop *)

Lemma run_jobs_eq (study_embeddings : list vec) (jobs_data : list job)
    (st : state) :
  run_jobs study_embeddings st jobs_data
  = Ok (fold_left (next_state study_embeddings) jobs_data st).
Proof.
  revert st. induction jobs_data as [|j rest IH]; intros st; simpl.
  - reflexivity.
  - rewrite process_job_eq. simpl. apply IH.
Qed.

Lemma run_counter (se : list vec) (jobs_data : list job) (st : state) :
  job_skill_counter (fold_left (next_state se) jobs_data st)
  = count_skills (job_skill_counter st) (flat_map job_skill_texts jobs_data).
Proof.
  revert st. induction jobs_data as [|j rest IH]; intros st; simpl.
  - reflexivity.
  - rewrite IH. simpl. now rewrite count_skills_app.
Qed.



Lemma add_flags_length (counts : list Z) (flags : list bool) :
  List.length counts = List.length flags ->
  List.length (add_flags counts flags) = List.length counts.
Proof.
  intros H. unfold add_flags. rewrite length_map, length_combine. lia.
Qed.




Lemma next_state_counts_length (se : list vec) (st : state) (j : job) :
  List.length (study_skill_match_counts st) = List.length se ->
  List.length (study_skill_match_counts (next_state se st j))
  = List.length se.
Proof.
  intros H. simpl. destruct (job_skill_texts j); [exact H|].
  rewrite add_flags_length; [exact H|]. now rewrite length_map.
Qed.


Lemma run_counts_length (se : list vec) (jobs_data : list job)
    (st : state) :
  List.length (study_skill_match_counts st) = List.length se ->
  List.length
    (study_skill_match_counts (fold_left (next_state se) jobs_data st))
  = List.length se.
Proof.
  revert st. induction jobs_data as [|j rest IH]; intros st H; simpl.
  - exact H.
  - apply IH. now apply next_state_counts_length.
Qed.


(** *** The properties of the loop *)






(** C6. The match matrix [similarity_matrix >= SIMILARITY_THRESHOLD] is
    true at (i, j) exactly when the similarity of phrase i and study
    skill j is at least the threshold 0.50; a similarity equal to the
    threshold is a match. *)
Theorem match_iff_similarity_reaches_threshold :
  (SIMILARITY_THRESHOLD == 50 # 100)%Q
  /\ (forall (a b : list vec) (i j : nat) (x y : vec),
        nth_error a i = Some x -> nth_error b j = Some y ->
        (nth j (nth i (ge_threshold (cos_sim a b)) []) false = true
         <-> (SIMILARITY_THRESHOLD <= cos x y)%Q)
        /\ ((cos x y == SIMILARITY_THRESHOLD)%Q ->
            nth j (nth i (ge_threshold (cos_sim a b)) []) false = true)).
Proof.
  split; [reflexivity|].
  intros a b i j x y Hx Hy.
  assert (E : nth j (nth i (ge_threshold (cos_sim a b)) []) false
              = is_match x y).
  { unfold ge_threshold, cos_sim. rewrite map_map.
    revert i Hx. induction a as [|x0 a IH]; intros [|i]; simpl;
      try discriminate.
    - intros [= ->]. now apply nth_match_row.
    - apply IH. }
  rewrite E. unfold is_match. split.
  - apply Qle_bool_iff.
  - intros H. apply Qle_bool_iff. rewrite H. apply Qle_refl.
Qed.

(** *** Facts about sorting *)

Lemma insert_desc_perm (x : string * Z) (rows : list (string * Z)) :
  Permutation (insert_desc x rows) (x :: rows).
Proof.
  induction rows as [|y rest IH]; simpl; [reflexivity|].
  destruct (snd x <? snd y)%Z; [|reflexivity].
  rewrite IH. apply perm_swap.
Qed.


Lemma insert_desc_sorted (x : string * Z) (rows : list (string * Z)) :
  descending rows -> descending (insert_desc x rows).
Proof.
  unfold descending. induction rows as [|y rest IH]; simpl; intros H.
  - repeat constructor.
  - apply StronglySorted_inv in H. destruct H as [Hs Hy].
    destruct (snd x <? snd y)%Z eqn:E; simpl.
    + constructor; [now apply IH|].
      apply Z.ltb_lt in E.
      assert (Hp : Permutation (map snd (insert_desc x rest))
                               (snd x :: map snd rest)).
      { change (snd x :: map snd rest) with (map snd (x :: rest)).
        apply Permutation_map, insert_desc_perm. }
      apply Forall_forall. intros z Hz.
      apply (Permutation_in _ Hp) in Hz. destruct Hz as [<-|Hz]; [lia|].
      rewrite Forall_forall in Hy. now apply Hy.
    + apply Z.ltb_ge in E. constructor.
      * now constructor.
      * constructor; [exact E|].
        eapply Forall_impl; [|exact Hy]. simpl. intros; lia.
Qed.

Lemma stable_sort_desc_sorted (rows : list (string * Z)) :
  descending (stable_sort_desc rows).
Proof.
  induction rows as [|x rows IH]; simpl.
  - constructor.
  - now apply insert_desc_sorted.
Qed.

Lemma insert_desc_ties (x : string * Z) (rows : list (string * Z)) (c : Z) :
  descending rows ->
  filter (fun r => (snd r =? c)%Z) (insert_desc x rows)
  = filter (fun r => (snd r =? c)%Z) (x :: rows).
Proof.
  unfold descending. induction rows as [|y rest IH]; intros H;
    [reflexivity|].
  simpl map in H. apply StronglySorted_inv in H. destruct H as [Hs Hy].
  simpl insert_desc. destruct (snd x <? snd y)%Z eqn:E; [|reflexivity].
  apply Z.ltb_lt in E. simpl filter at 1. rewrite (IH Hs). simpl.
  destruct (Z.eqb_spec (snd x) c), (Z.eqb_spec (snd y) c);
    try reflexivity; lia.
Qed.

(** The stable sort does keep the order of ties. *)
Lemma stable_sort_desc_ties (rows : list (string * Z)) :
  keeps_tie_order rows (stable_sort_desc rows).
Proof.
  intros c. induction rows as [|x rows IH]; [reflexivity|].
  simpl stable_sort_desc.
  rewrite insert_desc_ties by apply stable_sort_desc_sorted.
  simpl. now rewrite IH.
Qed.



(** *** Facts about the headline computations *)

Lemma argmax_from_lt (l : list Z) (best_i : nat) (best : Z) (i : nat) :
  (best_i < i)%nat ->
  (argmax_from best_i best i l < i + List.length l)%nat.
Proof.
  revert best_i best i. induction l as [|x l IH]; intros best_i best i H;
    simpl.
  - lia.
  - destruct (best <? x)%Z.
    + specialize (IH i x (S i)). lia.
    + specialize (IH best_i best (S i)). lia.
Qed.

Lemma idxmax_ok (values : list Z) :
  values <> [] ->
  exists i, idxmax values = Ok i /\ (i < List.length values)%nat.
Proof.
  destruct values as [|x l]; [congruence|]. intros _.
  eexists. split; [reflexivity|].
  pose proof (argmax_from_lt l 0 x 1). simpl. lia.
Qed.

Lemma list_item_ok {A} (l : list A) (i : nat) :
  (i < List.length l)%nat -> exists a, list_item l i = Ok a.
Proof.
  intros H. unfold list_item.
  destruct (nth_error l i) eqn:E; [now eexists|].
  apply nth_error_None in E. lia.
Qed.

Lemma max_from_in (keyf : string -> Z) (l : list string) (best : string) :
  In (max_from keyf best l) (best :: l).
Proof.
  revert best. induction l as [|k l IH]; intros best; simpl.
  - now left.
  - destruct (keyf best <? keyf k)%Z.
    + right. apply IH.
    + destruct (IH best) as [H|H]; [now left | now right; right].
Qed.

Lemma dict_item_ok (d : counter) (k : string) :
  In k (map fst d) -> exists v, dict_item d k = Ok v.
Proof.
  induction d as [|[k' v] d IH]; simpl; [contradiction|].
  intros H. destruct (String.eqb_spec k' k) as [->|Hne].
  - now eexists.
  - destruct H as [H|H]; [congruence|now apply IH].
Qed.

(** The guarded headline never raises. *)
Lemma most_needed_ok (c : counter) : exists o, most_needed c = Ok o.
Proof.
  destruct c as [|[k v] c]; [now eexists|].
  unfold most_needed, py_max. cbn [map fst rbind].
  set (best := max_from _ k (map fst c)).
  destruct (dict_item_ok ((k, v) :: c) best) as [n Hn].
  - apply (max_from_in _ (map fst c) k).
  - rewrite Hn. now eexists.
Qed.


(** With a non-empty vocabulary and a model that returns one vector per
    phrase, [main] writes its four files and returns. *)
Lemma main_completes (skills_data : skills_file) (jobs_data : list job)
    (m : model) :
  encode_contract ->
  study_skills_of skills_data <> [] ->
  exists st top_study top_job,
    run_jobs (fst (encode (study_skills_of skills_data) m))
      (initial_state (List.length (study_skills_of skills_data))
         (snd (encode (study_skills_of skills_data) m)))
      jobs_data = Ok st
    /\ most_needed (job_skill_counter st) = Ok top_job
    /\ main skills_data jobs_data m []
       = ([(OUTPUT_CSV, ResultsCsv (results st));
           ("job_skill_summary.txt", SummaryTxt top_study top_job);
           ("study_skill_match_counts.csv",
            CountsCsv (sort_values
                         (combine (study_skills_of skills_data)
                                  (study_skill_match_counts st))));
           ("job_skill_frequencies.csv",
            CountsCsv (sort_values (job_skill_counter st)))],
          Ok tt).
Proof.
  intros Henc Hne. unfold main.
  set (study_skills := study_skills_of skills_data) in *.
  destruct (encode study_skills m) as [se m1] eqn:Ee. cbn [fst snd].
  set (st := fold_left (next_state se) jobs_data
               (initial_state (List.length study_skills) m1)).
  assert (Hlen : List.length (study_skill_match_counts st)
                 = List.length study_skills).
  { unfold st. rewrite run_counts_length.
    - pose proof (Henc study_skills m) as H. now rewrite Ee in H.
    - simpl. rewrite repeat_length.
      pose proof (Henc study_skills m) as H. now rewrite Ee in H. }
  destruct (idxmax_ok (study_skill_match_counts st)) as [idx [Hidx Hlt]].
  { intros E. rewrite E in Hlen. destruct study_skills; [congruence|].
    discriminate. }
  destruct (list_item_ok study_skills idx) as [sk Hsk]; [lia|].
  destruct (list_item_ok (study_skill_match_counts st) idx) as [cnt Hcnt];
    [lia|].
  destruct (most_needed_ok (job_skill_counter st)) as [top Htop].
  exists st, (sk, cnt), top.
  split; [apply run_jobs_eq|]. split; [exact Htop|].
  unfold io_bind, lift, write_file. rewrite run_jobs_eq. fold st.
  rewrite Hidx, Hsk, Hcnt, Htop. unfold data_frame.
  rewrite Hlen, Nat.eqb_refl. reflexivity.
Qed.


(** The sibling guard: with no posting at all the second headline is
    reported as absent and [main] completes. *)
Lemma no_postings_guarded (skills_data : skills_file) (m : model) :
  encode_contract ->
  study_skills_of skills_data <> [] ->
  exists top_study coverage,
    main skills_data [] m []
    = ([(OUTPUT_CSV, ResultsCsv []);
        ("job_skill_summary.txt", SummaryTxt top_study None);
        ("study_skill_match_counts.csv", CountsCsv coverage);
        ("job_skill_frequencies.csv", CountsCsv (sort_values []))],
       Ok tt).
Proof.
  intros Henc Hne.
  destruct (main_completes skills_data [] m Henc Hne)
    as [st [top_study [top_job [Hrun [Htop Hmain]]]]].
  simpl in Hrun. injection Hrun as <-.
  simpl in Htop. injection Htop as <-.
  eexists _, _. exact Hmain.
Qed.


(** *** Determinism *)





(** *** Further properties of the phrase normalizer *)

Lemma job_skill_texts_eq (j : job) : job_skill_texts j = normalize_posting j.
Proof.
  unfold job_skill_texts, FIELDS, normalize_posting. simpl.
  rewrite !extend_with_field_spec. simpl. now rewrite <- !app_assoc.
Qed.

Lemma job_skill_texts_ok (j : job) : Forall phrase_ok (job_skill_texts j).
Proof.
  rewrite job_skill_texts_eq. unfold normalize_posting.
  repeat (apply Forall_app; split); apply normalize_field_ok.
Qed.

Lemma drop_empty_nil_iff (l : list string) :
  drop_empty (map strip l) = [] <-> forallb (all_chars isspace) l = true.
Proof.
  unfold drop_empty. induction l as [|x l IH]; simpl; [now split|].
  rewrite truthy_strip. destruct (all_chars isspace x); simpl.
  - exact IH.
  - split; discriminate.
Qed.

Lemma forallb_flat_map {A B} (p : B -> bool) (f : A -> list B)
    (l : list A) :
  forallb p (flat_map f l) = forallb (fun a => forallb p (f a)) l.
Proof.
  induction l as [|a l IH]; simpl; [reflexivity|].
  now rewrite forallb_app, IH.
Qed.

Lemma forallb_pointwise {A} (p q : A -> bool) (l : list A) :
  (forall a, p a = q a) -> forallb p l = forallb q l.
Proof.
  intros H. induction l as [|a l IH]; simpl; [reflexivity|].
  now rewrite H, IH.
Qed.

Lemma normalize_field_nil_iff (v : option field_value) :
  normalize_field v = [] <-> field_blank v = true.
Proof.
  destruct v as [[items|s]|]; simpl.
  - apply drop_empty_nil_iff.
  - rewrite drop_empty_nil_iff, forallb_flat_map.
    rewrite (forallb_pointwise _
               (all_chars (fun c => isspace c || Ascii.eqb c ",")))
      by (intros part; apply forallb_split).
    rewrite forallb_split. unfold is_filler. reflexivity.
  - now split.
Qed.

(** X1. A posting yields no phrase exactly when each of its four fields is
    absent, a list of white-space strings, or a string of white space,
    commas and semicolons. *)
Theorem no_phrase_iff_blank_fields (j : job) :
  job_skill_texts j = []
  <-> forallb (fun f => field_blank (job_get j f)) FIELDS = true.
Proof.
  rewrite job_skill_texts_eq. unfold normalize_posting, FIELDS.
  cbn [forallb job_get]. rewrite !andb_true_iff.
  rewrite <- !normalize_field_nil_iff. split.
  - intros H. apply app_eq_nil in H. destruct H as [H1 H].
    apply app_eq_nil in H. destruct H as [H2 H].
    apply app_eq_nil in H. destruct H as [H3 H4]. tauto.
  - intros [H1 [H2 [H3 [H4 _]]]]. now rewrite H1, H2, H3, H4.
Qed.

Lemma drop_empty_strip_all (p : ascii -> bool) (l : list string) :
  Forall (fun w => all_chars p w = true) l ->
  Forall (fun w => all_chars p w = true) (drop_empty (map strip l)).
Proof.
  intros H. apply Forall_forall. intros w Hw. unfold drop_empty in Hw.
  apply filter_In in Hw. destruct Hw as [Hw _].
  apply in_map_iff in Hw. destruct Hw as [x [<- Hx]].
  apply all_chars_strip. rewrite Forall_forall in H. now apply H.
Qed.

Lemma scalar_tokens_lack (s : string) :
  Forall (fun w => lacks "," w = true /\ lacks ";" w = true)
         (flat_map (split ",") (split ";" s)).
Proof.
  apply Forall_flat_map. 
  pose proof (split_lacks ";" s) as H.
  eapply Forall_impl; [|exact H]. intros part Hpart. simpl in Hpart.
  pose proof (split_lacks "," part) as Hc.
  pose proof (all_chars_split _ "," part Hpart) as Hs.
  apply Forall_forall. intros w Hw.
  rewrite Forall_forall in Hc, Hs. split; [now apply Hc|now apply Hs].
Qed.

Lemma normalize_scalar_lacks (v : option field_value) :
  not_list v = true ->
  Forall (fun w => lacks "," w = true /\ lacks ";" w = true)
         (normalize_field v).
Proof.
  destruct v as [[items|s]|]; simpl; [discriminate| |constructor].
  intros _. pose proof (scalar_tokens_lack s) as H.
  apply Forall_forall. intros w Hw.
  assert (H1 : Forall (fun w => lacks "," w = true)
                 (flat_map (split ",") (split ";" s)))
    by (eapply Forall_impl; [|exact H]; now intros ? [? ?]).
  assert (H2 : Forall (fun w => lacks ";" w = true)
                 (flat_map (split ",") (split ";" s)))
    by (eapply Forall_impl; [|exact H]; now intros ? [? ?]).
  apply drop_empty_strip_all in H1. apply drop_empty_strip_all in H2.
  rewrite Forall_forall in H1, H2. split; [now apply H1|now apply H2].
Qed.

(** X2. When none of the four fields is a list, no phrase of the posting
    holds a comma or a semicolon. *)
Theorem scalar_phrases_lack_delimiters (j : job) :
  forallb (fun f => not_list (job_get j f)) FIELDS = true ->
  Forall (fun p => lacks "," p = true /\ lacks ";" p = true)
         (job_skill_texts j).
Proof.
  unfold FIELDS. cbn [forallb job_get]. rewrite !andb_true_iff.
  intros [H1 [H2 [H3 [H4 _]]]].
  rewrite job_skill_texts_eq. unfold normalize_posting.
  repeat (apply Forall_app; split); now apply normalize_scalar_lacks.
Qed.

(** X3. The elements of a list are never split, and normalizing is
    idempotent: a posting whose requirements are the phrase list of
    another posting has exactly that phrase list. *)
Theorem normalized_phrases_are_fixed (j : job) (t c : option string) :
  job_skill_texts
    (mkJob t c (Some (FList (job_skill_texts j))) None None None)
  = job_skill_texts j.
Proof.
  rewrite (job_skill_texts_eq (mkJob _ _ _ _ _ _)).
  unfold normalize_posting. cbn [f_requirements f_technologies_expected
    f_technologies_optional f_specializations normalize_field].
  rewrite !app_nil_r, <- cleaned_spec.
  apply cleaned_fix, job_skill_texts_ok.
Qed.

(** *** Further properties of the loop *)

Lemma blank_fields_texts (j : job) :
  forallb (fun f => field_blank (job_get j f)) FIELDS = true ->
  job_skill_texts j = [].
Proof.
  unfold FIELDS. cbn [forallb job_get]. rewrite !andb_true_iff.
  rewrite <- !normalize_field_nil_iff. intros [H1 [H2 [H3 [H4 _]]]].
  rewrite job_skill_texts_eq. unfold normalize_posting.
  now rewrite H1, H2, H3, H4.
Qed.

(** X4. A posting whose fields are all blank adds a row of zeros and touches
    nothing else: the coverage counters, the frequencies and the
    embedding model (which is not called) stay as they were. *)
Theorem blank_posting_leaves_state (se : list vec) (st : state) (j : job) :
  forallb (fun f => field_blank (job_get j f)) FIELDS = true ->
  process_job se st j
  = Ok (mkState
          (results st
             ++ [mkResult (get_or_empty (f_title j))
                          (get_or_empty (f_company j)) 0 0 0])
          (study_skill_match_counts st)
          (job_skill_counter st)
          (provider st)).
Proof.
  intros H. apply blank_fields_texts in H.
  unfold process_job. rewrite H. reflexivity.
Qed.










Lemma dict_set_in_keys (d : counter) (k k' : string) (v : Z) :
  In k' (map fst (dict_set d k v)) <-> In k' (map fst d) \/ k' = k.
Proof.
  induction d as [|[k0 v0] d IH]; simpl.
  - split; [intros [H|[]]; now right | intros [[]|H]; now left].
  - destruct (String.eqb_spec k0 k) as [->|Hne]; simpl.
    + split; [tauto|]. intros [H|H]; [exact H|]. left. now symmetry.
    + rewrite IH. tauto.
Qed.

Lemma count_skills_keys (texts : list string) (c : counter) (k : string) :
  In k (map fst (count_skills c texts))
  <-> In k (map fst c) \/ In k texts.
Proof.
  unfold count_skills. revert c.
  induction texts as [|t texts IH]; intros c; simpl.
  - tauto.
  - rewrite IH. unfold count_skill. rewrite dict_set_in_keys.
    split; intros H; intuition congruence.
Qed.







(** *** Further properties of the headlines and of [main] *)

Lemma argmax_from_spec (l pre : list Z) (best_i : nat) (best : Z) :
  nth_error pre best_i = Some best ->
  Forall (fun x => x <= best)%Z pre ->
  (forall k x, (k < best_i)%nat -> nth_error pre k = Some x ->
               (x < best)%Z) ->
  exists v,
    nth_error (pre ++ l) (argmax_from best_i best (List.length pre) l)
    = Some v
    /\ Forall (fun x => x <= v)%Z (pre ++ l)
    /\ (forall k x,
          (k < argmax_from best_i best (List.length pre) l)%nat ->
          nth_error (pre ++ l) k = Some x -> (x < v)%Z).
Proof.
  revert pre best_i best. induction l as [|x l IH];
    intros pre best_i best Hb Hle Hlt.
  - simpl. rewrite app_nil_r. now exists best.
  - assert (Hbi : (best_i < List.length pre)%nat)
      by (apply nth_error_Some; congruence).
    simpl argmax_from.
    replace (pre ++ x :: l) with ((pre ++ [x]) ++ l)
      by (now rewrite <- app_assoc).
    replace (S (List.length pre)) with (List.length (pre ++ [x]))
      by (rewrite length_app; simpl; lia).
    destruct (best <? x)%Z eqn:E.
    + apply Z.ltb_lt in E. apply IH.
      * rewrite nth_error_app2 by lia. now rewrite Nat.sub_diag.
      * apply Forall_app. split; [|repeat constructor; lia].
        eapply Forall_impl; [|exact Hle]. simpl. intros; lia.
      * intros k y Hk Hy. rewrite nth_error_app1 in Hy by exact Hk.
        rewrite Forall_forall in Hle.
        apply nth_error_In, Hle in Hy. lia.
    + apply Z.ltb_ge in E. apply IH.
      * rewrite nth_error_app1 by exact Hbi. exact Hb.
      * apply Forall_app. split; [exact Hle|]. now repeat constructor.
      * intros k y Hk Hy. rewrite nth_error_app1 in Hy by lia.
        now apply (Hlt k).
Qed.

(** [idxmax] gives the first position of the greatest value. *)
Lemma idxmax_spec (values : list Z) :
  values <> [] ->
  exists i v,
    idxmax values = Ok i
    /\ nth_error values i = Some v
    /\ Forall (fun x => x <= v)%Z values
    /\ (forall k x, (k < i)%nat -> nth_error values k = Some x ->
                    (x < v)%Z).
Proof.
  destruct values as [|x l]; [congruence|]. intros _.
  destruct (argmax_from_spec l [x] 0 x) as [v [H1 [H2 H3]]].
  - reflexivity.
  - repeat constructor. lia.
  - intros k y Hk. lia.
  - exists (argmax_from 0 x 1 l), v. repeat split; assumption.
Qed.

Lemma max_from_argmax (keyf : string -> Z) (l pre : list string)
    (best_i : nat) (best : string) :
  nth_error pre best_i = Some best ->
  nth_error (pre ++ l)
    (argmax_from best_i (keyf best) (List.length pre) (map keyf l))
  = Some (max_from keyf best l).
Proof.
  revert pre best_i best. induction l as [|k l IH];
    intros pre best_i best Hb.
  - simpl. rewrite app_nil_r. exact Hb.
  - assert (Hbi : (best_i < List.length pre)%nat)
      by (apply nth_error_Some; congruence).
    simpl.
    replace (pre ++ k :: l) with ((pre ++ [k]) ++ l)
      by (now rewrite <- app_assoc).
    replace (S (List.length pre)) with (List.length (pre ++ [k]))
      by (rewrite length_app; simpl; lia).
    destruct (keyf best <? keyf k)%Z.
    + apply IH. rewrite nth_error_app2 by lia. now rewrite Nat.sub_diag.
    + apply IH. now rewrite nth_error_app1 by exact Hbi.
Qed.

Lemma dict_get_entry (d : counter) (k : string) (v : Z) :
  NoDup (map fst d) -> In (k, v) d -> dict_get d k 0 = v.
Proof.
  induction d as [|[k0 v0] d IH]; simpl; [contradiction|].
  intros Hn [H|H].
  - injection H as -> ->. now rewrite String.eqb_refl.
  - inversion Hn as [|? ? Hnot Hn']; subst.
    destruct (String.eqb_spec k0 k) as [->|Hne]; [|now apply IH].
    exfalso. apply Hnot. apply in_map_iff. now exists (k, v).
Qed.

Lemma dict_item_entry (d : counter) (k : string) (v : Z) :
  NoDup (map fst d) -> In (k, v) d -> dict_item d k = Ok v.
Proof.
  induction d as [|[k0 v0] d IH]; simpl; [contradiction|].
  intros Hn [H|H].
  - injection H as -> ->. now rewrite String.eqb_refl.
  - inversion Hn as [|? ? Hnot Hn']; subst.
    destruct (String.eqb_spec k0 k) as [->|Hne]; [|now apply IH].
    exfalso. apply Hnot. apply in_map_iff. now exists (k, v).
Qed.

Lemma dict_values_by_key (d : counter) :
  NoDup (map fst d) ->
  map (fun k => dict_get d k 0) (map fst d) = map snd d.
Proof.
  intros Hn. rewrite map_map. apply map_ext_in. intros [k v] Hin.
  simpl. now apply dict_get_entry.
Qed.

(** The second headline of a non-empty dict with distinct keys: the
    entry with the greatest frequency, the first inserted among equals. *)
Lemma most_needed_spec (c : counter) :
  NoDup (map fst c) -> c <> [] ->
  exists i k v,
    most_needed c = Ok (Some (k, v))
    /\ nth_error c i = Some (k, v)
    /\ Forall (fun kv => snd kv <= v)%Z c
    /\ (forall n kv, (n < i)%nat -> nth_error c n = Some kv ->
                     (snd kv < v)%Z).
Proof.
  intros Hn Hne. destruct c as [|[k0 v0] c']; [congruence|].
  set (c := (k0, v0) :: c') in *.
  set (keyf := fun k => dict_get c k 0).
  pose proof (max_from_argmax keyf (map fst c') [k0] 0 k0 eq_refl) as Hk.
  destruct (argmax_from_spec (map keyf (map fst c')) [keyf k0] 0 (keyf k0))
    as [v [Hv [Hall Hfirst]]].
  { reflexivity. }
  { repeat constructor. lia. }
  { intros n x Hlt. lia. }
  simpl List.length in Hk, Hv, Hfirst.
  set (i := argmax_from 0 (keyf k0) 1 (map keyf (map fst c'))) in *.
  change ([k0] ++ map fst c') with (map fst c) in Hk.
  change ([keyf k0] ++ map keyf (map fst c'))
    with (map keyf (map fst c)) in Hv, Hall, Hfirst.
  unfold keyf in Hv, Hall, Hfirst.
  rewrite (dict_values_by_key c Hn) in Hv, Hall, Hfirst.
  set (k := max_from keyf k0 (map fst c')) in *.
  assert (Hentry : nth_error c i = Some (k, v)).
  { rewrite nth_error_map in Hk, Hv.
    destruct (nth_error c i) as [[k1 v1]|]; [|discriminate].
    simpl in Hk, Hv. congruence. }
  exists i, k, v. split.
  - unfold most_needed. fold c. unfold py_max.
    change (map fst c) with (k0 :: map fst c'). cbn [rbind].
    fold keyf. fold k.
    rewrite (dict_item_entry c k v Hn (nth_error_In _ _ Hentry)).
    reflexivity.
  - split; [exact Hentry|]. split.
    + apply Forall_forall. intros kv Hin.
      rewrite Forall_forall in Hall. apply Hall.
      apply in_map_iff. now exists kv.
    + intros n kv Hlt Hkv. apply (Hfirst n); [exact Hlt|].
      now rewrite nth_error_map, Hkv.
Qed.

Lemma nth_error_list_item {A} (l : list A) (i : nat) (a : A) :
  nth_error l i = Some a -> list_item l i = Ok a.
Proof. unfold list_item. now intros ->. Qed.

(** What [main] writes when it completes, with the two headlines named. *)
Lemma main_summary (skills_data : skills_file) (jobs_data : list job)
    (m : model) :
  encode_contract ->
  study_skills_of skills_data <> [] ->
  exists st idx sk cnt top,
    run_jobs (fst (encode (study_skills_of skills_data) m))
      (initial_state (List.length (study_skills_of skills_data))
         (snd (encode (study_skills_of skills_data) m)))
      jobs_data = Ok st
    /\ job_skill_counter st
       = count_skills [] (flat_map job_skill_texts jobs_data)
    /\ idxmax (study_skill_match_counts st) = Ok idx
    /\ nth_error (study_skills_of skills_data) idx = Some sk
    /\ nth_error (study_skill_match_counts st) idx = Some cnt
    /\ most_needed (job_skill_counter st) = Ok top
    /\ main skills_data jobs_data m []
       = ([(OUTPUT_CSV, ResultsCsv (results st));
           ("job_skill_summary.txt", SummaryTxt (sk, cnt) top);
           ("study_skill_match_counts.csv",
            CountsCsv (sort_values
                         (combine (study_skills_of skills_data)
                                  (study_skill_match_counts st))));
           ("job_skill_frequencies.csv",
            CountsCsv (sort_values (job_skill_counter st)))],
          Ok tt).
Proof.
  intros Henc Hne. unfold main.
  set (study_skills := study_skills_of skills_data) in *.
  pose proof (Henc study_skills m) as Hse.
  destruct (encode study_skills m) as [se m1] eqn:Ee. cbn [fst snd] in *.
  set (st := fold_left (next_state se) jobs_data
               (initial_state (List.length study_skills) m1)).
  assert (Hlen : List.length (study_skill_match_counts st)
                 = List.length study_skills).
  { unfold st. rewrite run_counts_length; [exact Hse|].
    simpl. rewrite repeat_length. now symmetry. }
  destruct (idxmax_spec (study_skill_match_counts st))
    as [idx [cnt [Hidx [Hcnt _]]]].
  { intros E. rewrite E in Hlen. destruct study_skills; [congruence|].
    discriminate. }
  assert (Hlt : (idx < List.length study_skills)%nat).
  { rewrite <- Hlen. apply nth_error_Some. congruence. }
  destruct (nth_error study_skills idx) as [sk|] eqn:Hsk;
    [|apply nth_error_None in Hsk; lia].
  destruct (most_needed_ok (job_skill_counter st)) as [top Htop].
  exists st, idx, sk, cnt, top.
  split; [apply run_jobs_eq|].
  split; [unfold st; now rewrite run_counter|].
  split; [exact Hidx|]. split; [exact Hsk|]. split; [exact Hcnt|].
  split; [exact Htop|].
  unfold io_bind, lift, write_file. rewrite run_jobs_eq. fold st.
  rewrite Hidx, (nth_error_list_item _ _ _ Hsk),
    (nth_error_list_item _ _ _ Hcnt), Htop.
  unfold data_frame. rewrite Hlen, Nat.eqb_refl. reflexivity.
Qed.

(** X8. The first headline: with a non-empty vocabulary and one vector per
    phrase, the summary names the study skill at the first position of
    the greatest coverage count, with that count. *)
Theorem summary_names_most_covered_skill :
  encode_contract ->
  forall (skills_data : skills_file) (jobs_data : list job) (m : model),
    study_skills_of skills_data <> [] ->
    exists st idx sk cnt top,
      run_jobs (fst (encode (study_skills_of skills_data) m))
        (initial_state (List.length (study_skills_of skills_data))
           (snd (encode (study_skills_of skills_data) m)))
        jobs_data = Ok st
      /\ read_file "job_skill_summary.txt"
           (fst (main skills_data jobs_data m []))
         = Some (SummaryTxt (sk, cnt) top)
      /\ nth_error (study_skills_of skills_data) idx = Some sk
      /\ nth_error (study_skill_match_counts st) idx = Some cnt
      /\ Forall (fun c => c <= cnt)%Z (study_skill_match_counts st)
      /\ (forall k c, (k < idx)%nat ->
            nth_error (study_skill_match_counts st) k = Some c ->
            (c < cnt)%Z).
Proof.
  intros Henc skills_data jobs_data m Hne.
  destruct (main_summary skills_data jobs_data m Henc Hne)
    as [st [idx [sk [cnt [top [Hrun [_ [Hidx [Hsk [Hcnt [_ Hmain]]]]]]]]]]].
  exists st, idx, sk, cnt, top.
  split; [exact Hrun|]. split; [now rewrite Hmain|].
  split; [exact Hsk|]. split; [exact Hcnt|].
  destruct (idxmax_spec (study_skill_match_counts st))
    as [i [v [Hi [Hv [Hall Hfirst]]]]].
  { intros E. rewrite E in Hcnt. now destruct idx. }
  assert (i = idx) by congruence. subst i.
  assert (v = cnt) by congruence. subst v.
  now split.
Qed.

(** X9. The second headline: it is absent exactly when no posting has a
    phrase; otherwise the summary names the phrase text with the
    greatest frequency, the first inserted among equals, with its number
    of occurrences over all postings. *)
Theorem summary_names_most_needed_skill :
  encode_contract ->
  forall (skills_data : skills_file) (jobs_data : list job) (m : model),
    study_skills_of skills_data <> [] ->
    exists st top_study top,
      run_jobs (fst (encode (study_skills_of skills_data) m))
        (initial_state (List.length (study_skills_of skills_data))
           (snd (encode (study_skills_of skills_data) m)))
        jobs_data = Ok st
      /\ read_file "job_skill_summary.txt"
           (fst (main skills_data jobs_data m []))
         = Some (SummaryTxt top_study top)
      /\ (top = None <-> flat_map job_skill_texts jobs_data = [])
      /\ (forall k v, top = Some (k, v) ->
            v = Z.of_nat (count_occ string_dec
                            (flat_map job_skill_texts jobs_data) k)
            /\ Forall (fun kv => snd kv <= v)%Z (job_skill_counter st)
            /\ exists i,
                 nth_error (job_skill_counter st) i = Some (k, v)
                 /\ forall n kv, (n < i)%nat ->
                      nth_error (job_skill_counter st) n = Some kv ->
                      (snd kv < v)%Z).
Proof.
  intros Henc skills_data jobs_data m Hne.
  destruct (main_summary skills_data jobs_data m Henc Hne)
    as [st [idx [sk [cnt [top [Hrun [Hc [_ [_ [_ [Htop Hmain]]]]]]]]]]].
  exists st, (sk, cnt), top.
  split; [exact Hrun|]. split; [now rewrite Hmain|].
  set (texts := flat_map job_skill_texts jobs_data) in *.
  assert (Hn : NoDup (map fst (job_skill_counter st)))
    by (rewrite Hc; apply count_skills_nodup; constructor).
  assert (Hempty : job_skill_counter st = [] <-> texts = []).
  { rewrite Hc. split.
    - intros E. destruct texts as [|t texts']; [reflexivity|].
      assert (Hin : In t (map fst (count_skills [] (t :: texts'))))
        by (apply count_skills_keys; right; now left).
      rewrite E in Hin. contradiction.
    - now intros ->. }
  split.
  - rewrite <- Hempty. destruct (job_skill_counter st) as [|kv c'] eqn:E.
    + simpl in Htop. injection Htop as <-. now split.
    + destruct (most_needed_spec (kv :: c')) as [i [k [v [Hm _]]]];
        [exact Hn | discriminate |].
      rewrite Hm in Htop. injection Htop as <-. split; discriminate.
  - intros k v ->.
    assert (Hne' : job_skill_counter st <> []).
    { intros E. rewrite E in Htop. discriminate. }
    destruct (most_needed_spec (job_skill_counter st) Hn Hne')
      as [i [k' [v' [Hm [Hi [Hall Hfirst]]]]]].
    rewrite Hm in Htop. injection Htop as -> ->.
    split; [|split; [exact Hall|now exists i]].
    rewrite <- (dict_get_entry (job_skill_counter st) k v Hn
                  (nth_error_In _ _ Hi)).
    rewrite Hc, count_skills_get. simpl. lia.
Qed.


End Engine.

(** *** The engine on the small model *)

Lemma text_encode_contract : encode_contract string nat text_encode.
Proof. intros texts m. simpl. apply length_map. Qed.




(** The run of [main] on the example, with a stable sort. *)
Example demo_run :
  main string nat text_encode text_cos stable_sort_desc
       demo_skills demo_jobs 0%nat []
  = ([("job_skill_matches.csv",
       ResultsCsv
         [mkResult "Data engineer" "Acme" 4 5 (4 # 5);
          mkResult "Clerk" "" 0 0 0;
          mkResult "" "Initech" 1 2 (1 # 2)]);
      ("job_skill_summary.txt",
       SummaryTxt ("Python", 1%Z) (Some ("Python", 2%Z)));
      ("study_skill_match_counts.csv",
       CountsCsv [("Python", 1%Z); ("SQL", 1%Z);
                  ("Team collaboration", 1%Z)]);
      ("job_skill_frequencies.csv",
       CountsCsv [("Python", 2%Z); ("SQL server", 1%Z); ("Docker", 1%Z);
                  ("python", 1%Z); ("Team collaboration", 1%Z);
                  ("Excel", 1%Z)])],
     Ok tt).
Proof. vm_compute. reflexivity. Qed.

(** The scenarios of the specification: "Python, SQL" against the
    vocabulary Python, Team collaboration gives 1 of 2 and coverage 1, 0;
    "Python, Python" counts the phrase twice and the coverage once; a
    posting without skill fields gives zeros and adds no frequency. *)
Example scenario_python_sql :
  run_jobs string nat text_encode text_cos ["python"; "team collaboration"]
    (initial_state nat 2 0%nat)
    [mkJob None None (Some (FScalar "Python, SQL")) None None None;
     mkJob None None (Some (FScalar "Python, Python")) None None None;
     mkJob (Some "Empty") None None None None None]
  = Ok (mkState nat
          [mkResult "" "" 1 2 (1 # 2); mkResult "" "" 2 2 (2 # 2);
           mkResult "Empty" "" 0 0 0]
          [2%Z; 0%Z]
          [("Python", 3%Z); ("SQL", 1%Z)]
          2%nat).
Proof. vm_compute. reflexivity. Qed.

(** "SQL server" against "SQL" has similarity exactly 1/2, and counts. *)
Example boundary_is_match : is_match string text_cos "sql server" "sql" = true.
Proof. reflexivity. Qed.

(** The failing run of C1 on a concrete input: no study skill, one
    posting. *)
Example empty_vocabulary_demo :
  main string nat text_encode text_cos stable_sort_desc
       (mkSkills [] [])
       [mkJob (Some "Dev") None (Some (FScalar "Python")) None None None]
       0%nat []
  = ([("job_skill_matches.csv", ResultsCsv [mkResult "Dev" "" 0 1 0])],
     Raise ValueError).
Proof. vm_compute. reflexivity. Qed.

(** *** The claims on the example *)






(** *** Further properties on the example *)

Lemma scalar_phrases_demo :
  Forall (fun p => lacks "," p = true /\ lacks ";" p = true)
         (job_skill_texts
            (mkJob None None (Some (FScalar "C, C++; Go,;"))
                   (Some (FScalar " ;R")) None None)).
Proof.
  apply scalar_phrases_lack_delimiters. reflexivity.
Defined.

Lemma blank_posting_demo :
  process_job string nat text_encode text_cos ["python"]
    (mkState nat [] [3%Z] [("Python", 3%Z)] 5%nat)
    (mkJob (Some "Clerk") None (Some (FScalar " ; , "))
           (Some (FList [" "; ""])) None (Some (FList [])))
  = Ok (mkState nat [mkResult "Clerk" "" 0 0 0] [3%Z]
          [("Python", 3%Z)] 5%nat).
Proof.
  apply (blank_posting_leaves_state string nat text_encode text_cos
           ["python"] (mkState nat [] [3%Z] [("Python", 3%Z)] 5%nat)).
  reflexivity.
Defined.


Lemma most_covered_demo :
  exists st idx sk cnt top,
    run_jobs string nat text_encode text_cos
      (fst (text_encode (study_skills_of demo_skills) 0%nat))
      (initial_state nat (List.length (study_skills_of demo_skills))
         (snd (text_encode (study_skills_of demo_skills) 0%nat)))
      demo_jobs = Ok st
    /\ read_file "job_skill_summary.txt"
         (fst (main string nat text_encode text_cos stable_sort_desc
                    demo_skills demo_jobs 0%nat []))
       = Some (SummaryTxt (sk, cnt) top)
    /\ nth_error (study_skills_of demo_skills) idx = Some sk
    /\ nth_error (study_skill_match_counts nat st) idx = Some cnt
    /\ Forall (fun c => c <= cnt)%Z (study_skill_match_counts nat st)
    /\ (forall k c, (k < idx)%nat ->
          nth_error (study_skill_match_counts nat st) k = Some c ->
          (c < cnt)%Z).
Proof.
  apply (summary_names_most_covered_skill string nat text_encode text_cos
           stable_sort_desc text_encode_contract demo_skills demo_jobs
           0%nat).
  discriminate.
Defined.

Lemma most_needed_demo :
  exists st top_study top,
    run_jobs string nat text_encode text_cos
      (fst (text_encode (study_skills_of demo_skills) 0%nat))
      (initial_state nat (List.length (study_skills_of demo_skills))
         (snd (text_encode (study_skills_of demo_skills) 0%nat)))
      demo_jobs = Ok st
    /\ read_file "job_skill_summary.txt"
         (fst (main string nat text_encode text_cos stable_sort_desc
                    demo_skills demo_jobs 0%nat []))
       = Some (SummaryTxt top_study top)
    /\ (top = None <-> flat_map job_skill_texts demo_jobs = [])
    /\ (forall k v, top = Some (k, v) ->
          v = Z.of_nat (count_occ string_dec
                          (flat_map job_skill_texts demo_jobs) k)
          /\ Forall (fun kv => snd kv <= v)%Z (job_skill_counter nat st)
          /\ exists i,
               nth_error (job_skill_counter nat st) i = Some (k, v)
               /\ forall n kv, (n < i)%nat ->
                    nth_error (job_skill_counter nat st) n = Some kv ->
                    (snd kv < v)%Z).
Proof.
  apply (summary_names_most_needed_skill string nat text_encode text_cos
           stable_sort_desc text_encode_contract demo_skills demo_jobs
           0%nat).
  discriminate.
Defined.


(** A list element keeps its comma. *)
Example list_element_not_split :
  job_skill_texts
    (mkJob None None (Some (FList ["Java, Kotlin"])) None None None)
  = ["Java, Kotlin"].
Proof. reflexivity. Qed.

End Compare.

(* ================================================================== *)
(** ** [parse_to_json.py]: the skill deduplicator *)
(* ================================================================== *)

Module ParseToJson.
Import PyStr.

(** Both kinds of skill have a [name]. *)
Class Named (A : Type) : Type := name : A -> string.

(** [models.py] *)
Record TechnologySkill : Type := mkTech {
  tech_name : string;
  category : string
}.

Record SoftSkill : Type := mkSoft {
  soft_name : string;
  description : string
}.

#[export] Instance TechnologySkill_named : Named TechnologySkill := tech_name.
#[export] Instance SoftSkill_named : Named SoftSkill := soft_name.

Record ExtractedSkills : Type := mkExtracted {
  technologies : list TechnologySkill;
  soft_skills : list SoftSkill;
  document_title : string
}.

(** A [Dict[str, A]], in insertion order. *)
Definition dict (A : Type) : Type := list (string * A).

(** [k in d] *)
Definition dict_mem {A} (k : string) (d : dict A) : bool :=
  existsb (String.eqb k) (map fst d).

(** [list(d.values())] *)
Definition values {A} (d : dict A) : list A := map snd d.

(** [x.name.lower().strip()] *)
Definition skill_key {A} `{Named A} (x : A) : string :=
  strip (lower (name x)).

(** The body of either deduplication loop:
<<
    key = x.name.lower().strip()
    if key and key not in unique:
        unique[key] = x
>> *)
Definition add_unique {A} `{Named A} (unique : dict A) (x : A) : dict A :=
  let key := skill_key x in
  if truthy key && negb (dict_mem key unique)
  then unique ++ [(key, x)]
  else unique.

Record SkillDeduplicator : Type := mkDedup {
  unique_technologies : dict TechnologySkill;
  unique_soft_skills : dict SoftSkill;
  document_titles : list string
}.

(** [SkillDeduplicator()] *)
Definition new_deduplicator : SkillDeduplicator := mkDedup [] [] [].

(** [SkillDeduplicator.add_extracted_skills] *)
Definition add_extracted_skills (self : SkillDeduplicator)
    (skills : ExtractedSkills) : SkillDeduplicator :=
  let titles :=
    if truthy (document_title skills)
       && negb (String.eqb (document_title skills) "Error")
    then document_titles self ++ [document_title skills]
    else document_titles self in
  mkDedup
    (fold_left add_unique (technologies skills) (unique_technologies self))
    (fold_left add_unique (soft_skills skills) (unique_soft_skills self))
    titles.

(** The number of documents, as the f-string prints it. *)
Definition str_of_nat (n : nat) : string :=
  DecimalString.NilZero.string_of_uint (Nat.to_uint n).

(** [SkillDeduplicator.get_deduplicated_skills] *)
Definition get_deduplicated_skills (self : SkillDeduplicator)
  : ExtractedSkills :=
  mkExtracted
    (values (unique_technologies self))
    (values (unique_soft_skills self))
    ("Combined skills from "
       ++ str_of_nat (List.length (document_titles self))
       ++ " documents").

(** Feeding a sequence of documents to a fresh deduplicator. *)
Definition deduplicate (docs : list ExtractedSkills) : ExtractedSkills :=
  get_deduplicated_skills (fold_left add_extracted_skills docs new_deduplicator).

(** The first skill, in the order met, whose key is [k]. *)
Definition first_with_key {A} `{Named A} (k : string) (l : list A)
  : option A :=
  find (fun u => String.eqb (skill_key u) k) l.

(** Every entry is filed under the key of its skill, and no key is
    filed twice. *)
Definition well_keyed {A} `{Named A} (d : dict A) : Prop :=
  Forall (fun kx => fst kx = skill_key (snd kx)) d /\ NoDup (map fst d).

(** A name made of white space only (or empty). *)
Fixpoint blank (s : string) : bool :=
  match s with
  | EmptyString => true
  | String c s' => isspace c && blank s'
  end.

(** [title and title != "Error"]: the title is kept as a document. *)
Definition title_counts (t : string) : bool :=
  truthy t && negb (String.eqb t "Error").

(** *** [extractor.py] and [process_markdown_files] *)

(** What the chat-completion call can do: raise, or answer with a parsed
    object that may be [None]. *)
Inductive api_outcome : Type :=
| ApiRaises
| ApiParsed (parsed : option ExtractedSkills).

(** [SkillExtractor]: its client, a call from the system and the user
    message to an outcome. *)
Record SkillExtractor : Type := mkExtractor {
  client : string -> string -> api_outcome
}.

Definition NL : string := String (ascii_of_nat 10) EmptyString.

(** The f-string [user_prompt]. *)
Definition user_prompt (text : string) : string :=
  NL ++ "        Analyze the following academic syllabus text and extract all technologies and skills in a job-portal format:"
     ++ NL ++ "        "
     ++ NL ++ "        " ++ text
     ++ NL ++ "        ".

(** [SkillExtractor.extract_skills_from_text]; [system_prompt] is the
    literal of the source. Any exception of the call gives the "Error"
    document; a parsed [None] is returned as it is. *)
Definition extract_skills_from_text (self : SkillExtractor)
    (system_prompt text : string) : option ExtractedSkills :=
  match client self system_prompt (user_prompt text) with
  | ApiParsed parsed => parsed
  | ApiRaises => Some (mkExtracted [] [] "Error")
  end.

(** A markdown file of the output directory: its stem, and its text when
    it can be read. *)
Record md_file : Type := mkFile {
  stem : string;
  read_text : option string
}.

(** The [try] block of the loop over the files; an unreadable file and a
    [None] answer (whose [document_title] cannot be read) raise inside
    it, and the [except] goes on to the next file. *)
Definition process_file (extractor : SkillExtractor)
    (system_prompt : string) (deduplicator : SkillDeduplicator)
    (f : md_file) : SkillDeduplicator :=
  match read_text f with
  | None => deduplicator
  | Some content =>
      match extract_skills_from_text extractor system_prompt content with
      | None => deduplicator
      | Some extracted_skills =>
          let titled :=
            if negb (truthy (document_title extracted_skills))
               || String.eqb (document_title extracted_skills) "Error"
            then mkExtracted (technologies extracted_skills)
                             (soft_skills extracted_skills) (stem f)
            else extracted_skills in
          add_extracted_skills deduplicator titled
      end
  end.

(** [process_markdown_files], once the extractor is built, on the files
    the glob found. *)
Definition process_markdown_files (extractor : SkillExtractor)
    (system_prompt : string) (md_files : list md_file) : ExtractedSkills :=
  match md_files with
  | [] => mkExtracted [] [] "No documents found"
  | _ :: _ =>
      get_deduplicated_skills
        (fold_left (process_file extractor system_prompt) md_files
                   new_deduplicator)
  end.

(** The document a file hands to the deduplicator, if it gets that far. *)
Definition document_of (extractor : SkillExtractor)
    (system_prompt : string) (f : md_file) : option ExtractedSkills :=
  match read_text f with
  | None => None
  | Some content =>
      match extract_skills_from_text extractor system_prompt content with
      | None => None
      | Some e =>
          Some (if title_counts (document_title e) then e
                else mkExtracted (technologies e) (soft_skills e) (stem f))
      end
  end.

(** The file is read and the answer is not [None] (the call itself may
    have raised). *)
Definition reaches_deduplicator (extractor : SkillExtractor)
    (system_prompt : string) (f : md_file) : bool :=
  match read_text f with
  | None => false
  | Some content =>
      match client extractor system_prompt (user_prompt content) with
      | ApiParsed None => false
      | _ => true
      end
  end.

(** The documents of a list of files, in order. *)
Fixpoint documents_of (extractor : SkillExtractor)
    (system_prompt : string) (md_files : list md_file)
  : list ExtractedSkills :=
  match md_files with
  | [] => []
  | f :: rest =>
      match document_of extractor system_prompt f with
      | Some d => d :: documents_of extractor system_prompt rest
      | None => documents_of extractor system_prompt rest
      end
  end.

(** A refused answer, an unreadable file and a failed call, side by
    side: only the first two are left out of the count. *)
Definition demo_extractor : SkillExtractor :=
  mkExtractor
    (fun _ user =>
       if String.eqb user (user_prompt "refuse") then ApiParsed None
       else if String.eqb user (user_prompt "fail") then ApiRaises
       else ApiParsed
              (Some (mkExtracted [mkTech "Python" "Language"] [] ""))).

Definition demo_files : list md_file :=
  [mkFile "algorithms" (Some "text");
   mkFile "broken" None;
   mkFile "refused" (Some "refuse");
   mkFile "failed" (Some "fail");
   mkFile "databases" (Some "more text")].

Example dedup_two_documents :
  deduplicate
    [mkExtracted [mkTech "Python" "Language"; mkTech "  " "Nothing"]
                 [mkSoft "Teamwork" "in projects"] "Algorithms";
     mkExtracted [mkTech " PYTHON " "Tool"; mkTech "Docker" "DevOps"]
                 [mkSoft "teamwork" "again"; mkSoft "" "empty"] "Error"]
  = mkExtracted [mkTech "Python" "Language"; mkTech "Docker" "DevOps"]
                [mkSoft "Teamwork" "in projects"]
                "Combined skills from 1 documents".
Proof. reflexivity. Qed.

(** *** White-space-only names have an empty key *)

Lemma isspace_lower_char (c : ascii) : isspace (lower_char c) = isspace c.
Proof. destruct c as [[] [] [] [] [] [] [] []]; reflexivity. Qed.

Lemma blank_lower (s : string) : blank (lower s) = blank s.
Proof.
  induction s as [|c s IH]; simpl; [reflexivity|].
  now rewrite isspace_lower_char, IH.
Qed.

Lemma lstrip_blank (s : string) : blank s = true -> lstrip s = EmptyString.
Proof.
  induction s as [|c s IH]; simpl; [reflexivity|].
  intros H. apply andb_true_iff in H. destruct H as [Hc Hs].
  rewrite Hc. now apply IH.
Qed.

Lemma rstrip_empty_blank (s : string) :
  rstrip s = EmptyString -> blank s = true.
Proof.
  induction s as [|c s IH]; simpl; [reflexivity|].
  destruct (rstrip s) eqn:E; [|discriminate].
  destruct (isspace c); [|discriminate]. intros _. now apply IH.
Qed.

Lemma lstrip_blank_empty (s : string) :
  blank (lstrip s) = true -> blank s = true.
Proof.
  induction s as [|c s IH]; simpl; [reflexivity|].
  destruct (isspace c) eqn:E; simpl.
  - exact IH.
  - rewrite E. discriminate.
Qed.

Lemma strip_empty_iff (s : string) :
  strip s = EmptyString <-> blank s = true.
Proof.
  unfold strip. split.
  - intros H. apply lstrip_blank_empty. now apply rstrip_empty_blank.
  - intros H. now rewrite (lstrip_blank s H).
Qed.

Lemma skill_key_empty_iff {A} `{Named A} (x : A) :
  skill_key x = EmptyString <-> blank (name x) = true.
Proof. unfold skill_key. rewrite strip_empty_iff. now rewrite blank_lower. Qed.

(** *** The deduplication loop keeps the first skill of every key *)

Section Loop.
Context {A : Type} `{Named A}.

Lemma dict_mem_iff (k : string) (d : dict A) :
  dict_mem k d = true <-> In k (map fst d).
Proof.
  unfold dict_mem. rewrite existsb_exists. split.
  - intros [k' [Hin Heq]]. apply String.eqb_eq in Heq. now subst.
  - intros Hin. exists k. split; [exact Hin|apply String.eqb_refl].
Qed.

Lemma add_unique_well_keyed (d : dict A) (x : A) :
  well_keyed d -> well_keyed (add_unique d x).
Proof.
  intros [Hk Hn]. unfold add_unique.
  destruct (truthy (skill_key x)) eqn:Et; simpl; [|now split].
  destruct (dict_mem (skill_key x) d) eqn:Em; simpl; [now split|].
  split.
  - apply Forall_app. split; [exact Hk|]. now repeat constructor.
  - rewrite map_app. simpl. apply NoDup_app;
      [exact Hn | repeat constructor; intros [] |].
    intros k Hin [<-|[]]. apply dict_mem_iff in Hin. congruence.
Qed.

Lemma fold_well_keyed (l : list A) (d : dict A) :
  well_keyed d -> well_keyed (fold_left add_unique l d).
Proof.
  revert d. induction l as [|x l IH]; intros d Hd; simpl; [exact Hd|].
  apply IH. now apply add_unique_well_keyed.
Qed.

(** What the loop leaves in the dict: what was there, and for every
    non-empty key that was not there the first skill met with it. *)
Lemma fold_add_unique_in (l : list A) (d : dict A) (k : string) (x : A) :
  In (k, x) (fold_left add_unique l d)
  <-> In (k, x) d
      \/ (~ In k (map fst d) /\ k <> EmptyString
          /\ first_with_key k l = Some x /\ k = skill_key x).
Proof.
  revert d. induction l as [|a l IH]; intros d; simpl.
  - split; [now left|]. intros [Hd|[_ [_ [Hf _]]]]; [exact Hd|discriminate].
  - rewrite IH. unfold add_unique, first_with_key. simpl find.
    destruct (truthy (skill_key a)) eqn:Et; cbn [andb].
    + destruct (dict_mem (skill_key a) d) eqn:Em; cbn [negb].
      * apply dict_mem_iff in Em.
        destruct (String.eqb_spec (skill_key a) k) as [Eak|Nak];
          [|reflexivity].
        subst k. split; (intros [Hd|[Hn _]]; [now left|contradiction]).
      * assert (Hnm : ~ In (skill_key a) (map fst d)).
        { intros Hin. apply dict_mem_iff in Hin. congruence. }
        rewrite map_app. simpl map.
        destruct (String.eqb_spec (skill_key a) k) as [Eak|Nak].
        -- subst k. split.
           ++ intros [Hd|[Hn _]].
              ** apply in_app_or in Hd. destruct Hd as [Hd|[Hd|[]]];
                   [now left|]. injection Hd as <-. right.
                 repeat split; try assumption. now apply truthy_true.
              ** exfalso. apply Hn, in_or_app. right. now left.
           ++ intros [Hd|[_ [_ [Hf _]]]].
              ** left. apply in_or_app. now left.
              ** injection Hf as <-. left. apply in_or_app. right.
                 now left.
        -- split.
           ++ intros [Hd|[Hn Hrest]].
              ** apply in_app_or in Hd. destruct Hd as [Hd|[Hd|[]]];
                   [now left|]. congruence.
              ** right. split; [|exact Hrest]. intros Hin. apply Hn.
                 apply in_or_app. now left.
           ++ intros [Hd|[Hn Hrest]].
              ** left. apply in_or_app. now left.
              ** right. split; [|exact Hrest]. intros Hin.
                 apply in_app_or in Hin. destruct Hin as [Hin|[Hin|[]]];
                   [contradiction|congruence].
    + apply truthy_false in Et.
      destruct (String.eqb_spec (skill_key a) k) as [Eak|Nak];
        [|reflexivity].
      split; (intros [Hd|[_ [Hne _]]]; [now left|congruence]).
Qed.

(** The values of the dict after a loop started from an empty dict. *)
Lemma dedup_values_in (l : list A) (x : A) :
  In x (values (fold_left add_unique l []))
  <-> skill_key x <> EmptyString
      /\ first_with_key (skill_key x) l = Some x.
Proof.
  unfold values. rewrite in_map_iff. split.
  - intros [[k y] [Hy Hin]]. simpl in Hy. subst y.
    apply fold_add_unique_in in Hin.
    destruct Hin as [[]|[_ [Hne [Hf Hk]]]]. subst k. now split.
  - intros [Hne Hf]. exists (skill_key x, x). split; [reflexivity|].
    apply fold_add_unique_in. right. repeat split; auto.
Qed.

Lemma dedup_values_keys (l : list A) :
  NoDup (map skill_key (values (fold_left add_unique l []))).
Proof.
  destruct (fold_well_keyed l []) as [Hk Hn]; [split; constructor|].
  unfold values. rewrite map_map.
  replace (map (fun kx => skill_key (snd kx)) (fold_left add_unique l []))
    with (map fst (fold_left add_unique l [])); [exact Hn|].
  apply map_ext_in. intros kx Hin. rewrite Forall_forall in Hk.
  now apply Hk.
Qed.

End Loop.

(** The dicts after a sequence of documents are those of one loop over
    all their skills. *)
Lemma fold_documents (docs : list ExtractedSkills) (self : SkillDeduplicator) :
  unique_technologies (fold_left add_extracted_skills docs self)
  = fold_left add_unique (flat_map technologies docs)
      (unique_technologies self)
  /\ unique_soft_skills (fold_left add_extracted_skills docs self)
     = fold_left add_unique (flat_map soft_skills docs)
         (unique_soft_skills self).
Proof.
  revert self. induction docs as [|d docs IH]; intros self; simpl.
  - now split.
  - destruct (IH (add_extracted_skills self d)) as [H1 H2].
    rewrite H1, H2, !fold_left_app. now split.
Qed.

(** C10. After any sequence of documents the deduplicated technologies
    (and likewise the soft skills) are exactly the skills that have a
    non-empty key -- the name lower-cased and trimmed -- and are the
    first met with that key, as they were given; no two of them share a
    key; and a skill whose name is empty or white space only is not
    among them. *)
Theorem deduplicator_keeps_first (docs : list ExtractedSkills) :
  (forall t : TechnologySkill,
      In t (technologies (deduplicate docs))
      <-> skill_key t <> EmptyString
          /\ first_with_key (skill_key t) (flat_map technologies docs)
             = Some t)
  /\ NoDup (map skill_key (technologies (deduplicate docs)))
  /\ (forall t : TechnologySkill,
        blank (tech_name t) = true ->
        ~ In t (technologies (deduplicate docs)))
  /\ (forall s : SoftSkill,
        In s (soft_skills (deduplicate docs))
        <-> skill_key s <> EmptyString
            /\ first_with_key (skill_key s) (flat_map soft_skills docs)
               = Some s)
  /\ NoDup (map skill_key (soft_skills (deduplicate docs)))
  /\ (forall s : SoftSkill,
        blank (soft_name s) = true ->
        ~ In s (soft_skills (deduplicate docs))).
Proof.
  unfold deduplicate, get_deduplicated_skills.
  cbn [technologies soft_skills].
  destruct (fold_documents docs new_deduplicator) as [Ht Hs].
  rewrite Ht, Hs. cbn [unique_technologies unique_soft_skills
    new_deduplicator].
  split; [apply dedup_values_in|].
  split; [apply dedup_values_keys|].
  split.
  { intros t Hb Hin. apply dedup_values_in in Hin.
    destruct Hin as [Hne _]. apply Hne. now apply skill_key_empty_iff. }
  split; [apply dedup_values_in|].
  split; [apply dedup_values_keys|].
  intros s Hb Hin. apply dedup_values_in in Hin.
  destruct Hin as [Hne _]. apply Hne. now apply skill_key_empty_iff.
Qed.

(** *** Further properties of the deduplicator *)

Lemma fold_titles (docs : list ExtractedSkills) (self : SkillDeduplicator) :
  document_titles (fold_left add_extracted_skills docs self)
  = document_titles self ++ filter title_counts (map document_title docs).
Proof.
  revert self. induction docs as [|d docs IH]; intros self; simpl.
  - now rewrite app_nil_r.
  - rewrite IH. unfold add_extracted_skills at 1. cbn [document_titles].
    unfold title_counts at 2.
    destruct (truthy (document_title d)
              && negb (String.eqb (document_title d) "Error")).
    + now rewrite <- app_assoc.
    + reflexivity.
Qed.

(** X11. The number in the combined title is the number of documents fed
    whose title is neither empty nor "Error". *)
Theorem combined_title_counts_documents (docs : list ExtractedSkills) :
  document_title (deduplicate docs)
  = ("Combined skills from "
       ++ str_of_nat
            (List.length (filter title_counts (map document_title docs)))
       ++ " documents")%string.
Proof.
  unfold deduplicate, get_deduplicated_skills. cbn [document_title].
  now rewrite fold_titles.
Qed.

(** X12. Feeding documents one after the other keeps the same skills as
    feeding one document that holds all their skills in order. *)
Theorem deduplicate_merged (docs : list ExtractedSkills) (t : string) :
  technologies (deduplicate docs)
  = technologies
      (deduplicate [mkExtracted (flat_map technologies docs)
                                (flat_map soft_skills docs) t])
  /\ soft_skills (deduplicate docs)
     = soft_skills
         (deduplicate [mkExtracted (flat_map technologies docs)
                                   (flat_map soft_skills docs) t]).
Proof.
  unfold deduplicate, get_deduplicated_skills.
  cbn [technologies soft_skills].
  destruct (fold_documents docs new_deduplicator) as [Ht Hs].
  rewrite Ht, Hs. now split.
Qed.

Section MoreLoop.
Context {A : Type} `{Named A}.

(** The loop only appends entries, each for a skill of the list. *)
Lemma fold_add_unique_appends (l : list A) (d : dict A) :
  exists added,
    fold_left add_unique l d = d ++ added
    /\ Forall (fun kx => In (snd kx) l /\ fst kx = skill_key (snd kx))
              added.
Proof.
  revert d. induction l as [|x l IH]; intros d; cbn [fold_left].
  - exists []. now rewrite app_nil_r.
  - destruct (IH (add_unique d x)) as [added [E Hall]]. rewrite E.
    clear E.
    assert (Hx : add_unique d x = d ++ [(skill_key x, x)]
                 \/ add_unique d x = d).
    { unfold add_unique.
      destruct (truthy (skill_key x) && negb (dict_mem (skill_key x) d));
        [now left|now right]. }
    destruct Hx as [Hx|Hx]; rewrite Hx.
    + exists ((skill_key x, x) :: added). split.
      * now rewrite <- app_assoc.
      * constructor; [split; [now left|reflexivity]|].
        eapply Forall_impl; [|exact Hall]. intros kx [Hin Hk].
        split; [now right|exact Hk].
    + exists added. split; [reflexivity|].
      eapply Forall_impl; [|exact Hall]. intros kx [Hin Hk].
      split; [now right|exact Hk].
Qed.

(** Skills with distinct non-empty keys, none of them in the dict, are
    all added, in order. *)
Lemma fold_add_unique_fresh (l : list A) (d : dict A) :
  NoDup (map skill_key l) ->
  Forall (fun x => skill_key x <> EmptyString) l ->
  (forall x, In x l -> ~ In (skill_key x) (map fst d)) ->
  fold_left add_unique l d = d ++ map (fun x => (skill_key x, x)) l.
Proof.
  revert d. induction l as [|x l IH]; intros d Hn Hne Hd; simpl.
  - now rewrite app_nil_r.
  - inversion Hn as [|? ? Hx Hn']; subst.
    inversion Hne as [|? ? Hxne Hne']; subst.
    unfold add_unique at 2.
    assert (Et : truthy (skill_key x) = true) by now apply truthy_true.
    assert (Em : dict_mem (skill_key x) d = false).
    { destruct (dict_mem (skill_key x) d) eqn:E; [|reflexivity].
      apply dict_mem_iff in E. exfalso. apply (Hd x); [now left|exact E]. }
    rewrite Et, Em. cbn [andb negb].
    rewrite IH; [now rewrite <- app_assoc| exact Hn' | exact Hne' |].
    intros y Hy Hin. rewrite map_app in Hin. apply in_app_or in Hin.
    destruct Hin as [Hin|[Hin|[]]].
    + apply (Hd y); [now right|exact Hin].
    + simpl in Hin. apply Hx. rewrite Hin. now apply in_map.
Qed.

(** Deduplicating what is already deduplicated changes nothing. *)
Lemma dedup_values_fixed (l : list A) :
  values (fold_left add_unique (values (fold_left add_unique l [])) [])
  = values (fold_left add_unique l []).
Proof.
  set (l' := values (fold_left add_unique l [])).
  rewrite fold_add_unique_fresh.
  - unfold values. simpl. rewrite map_map. simpl. apply map_id.
  - apply dedup_values_keys.
  - apply Forall_forall. intros x Hx. now apply dedup_values_in in Hx.
  - intros x _ [].
Qed.

End MoreLoop.

(** X13. Deduplication is idempotent on the skills: feeding the result back
    as a single document gives the same technologies and soft skills. *)
Theorem deduplicate_idempotent (docs : list ExtractedSkills) :
  technologies (deduplicate [deduplicate docs])
  = technologies (deduplicate docs)
  /\ soft_skills (deduplicate [deduplicate docs])
     = soft_skills (deduplicate docs).
Proof.
  unfold deduplicate, get_deduplicated_skills.
  cbn [fold_left add_extracted_skills technologies soft_skills
       unique_technologies unique_soft_skills new_deduplicator].
  destruct (fold_documents docs new_deduplicator) as [Ht Hs].
  rewrite Ht, Hs. cbn [unique_technologies unique_soft_skills
    new_deduplicator].
  split; apply dedup_values_fixed.
Qed.

(** X14. Adding a document never changes or reorders what is already kept:
    both dicts only grow at the end, by skills of the document filed
    under their own key. *)
Theorem add_extracted_skills_appends (self : SkillDeduplicator)
    (skills : ExtractedSkills) :
  exists added_t added_s,
    unique_technologies (add_extracted_skills self skills)
    = unique_technologies self ++ added_t
    /\ Forall (fun kx => In (snd kx) (technologies skills)
                         /\ fst kx = skill_key (snd kx)) added_t
    /\ unique_soft_skills (add_extracted_skills self skills)
       = unique_soft_skills self ++ added_s
    /\ Forall (fun kx => In (snd kx) (soft_skills skills)
                         /\ fst kx = skill_key (snd kx)) added_s.
Proof.
  destruct (fold_add_unique_appends (technologies skills)
              (unique_technologies self)) as [added_t [Et Ht]].
  destruct (fold_add_unique_appends (soft_skills skills)
              (unique_soft_skills self)) as [added_s [Es Hs]].
  exists added_t, added_s. cbn [add_extracted_skills unique_technologies
    unique_soft_skills]. now repeat split.
Qed.

(** *** Properties of [process_markdown_files] *)

Lemma process_file_document (extractor : SkillExtractor)
    (system_prompt : string) (d : SkillDeduplicator) (f : md_file) :
  process_file extractor system_prompt d f
  = match document_of extractor system_prompt f with
    | Some doc => add_extracted_skills d doc
    | None => d
    end.
Proof.
  unfold process_file, document_of, title_counts.
  destruct (read_text f) as [content|]; [|reflexivity].
  destruct (extract_skills_from_text extractor system_prompt content)
    as [e|]; [|reflexivity].
  destruct (truthy (document_title e)); simpl; [|reflexivity].
  now destruct (String.eqb (document_title e) "Error").
Qed.

Lemma fold_process_files (extractor : SkillExtractor)
    (system_prompt : string) (md_files : list md_file)
    (d : SkillDeduplicator) :
  fold_left (process_file extractor system_prompt) md_files d
  = fold_left add_extracted_skills
      (documents_of extractor system_prompt md_files) d.
Proof.
  revert d. induction md_files as [|f rest IH]; intros d; simpl.
  - reflexivity.
  - rewrite process_file_document.
    destruct (document_of extractor system_prompt f); simpl; apply IH.
Qed.

Lemma document_of_reaches (extractor : SkillExtractor)
    (system_prompt : string) (f : md_file) :
  reaches_deduplicator extractor system_prompt f
  = match document_of extractor system_prompt f with
    | Some _ => true
    | None => false
    end.
Proof.
  unfold reaches_deduplicator, document_of, extract_skills_from_text.
  destruct (read_text f) as [content|]; [|reflexivity].
  destruct (client extractor system_prompt (user_prompt content))
    as [|[e|]]; reflexivity.
Qed.

Lemma documents_of_titles (extractor : SkillExtractor)
    (system_prompt : string) (md_files : list md_file) :
  Forall (fun f => title_counts (stem f) = true) md_files ->
  filter title_counts
    (map document_title (documents_of extractor system_prompt md_files))
  = map document_title (documents_of extractor system_prompt md_files)
  /\ List.length (documents_of extractor system_prompt md_files)
     = List.length
         (filter (reaches_deduplicator extractor system_prompt) md_files).
Proof.
  induction 1 as [|f rest Hf _ [IH1 IH2]]; simpl; [now split|].
  rewrite document_of_reaches.
  destruct (document_of extractor system_prompt f) as [doc|] eqn:E;
    [|now split].
  simpl. rewrite IH1, IH2. split; [|reflexivity].
  assert (Hdoc : title_counts (document_title doc) = true).
  { unfold document_of in E.
    destruct (read_text f) as [content|]; [|discriminate].
    destruct (extract_skills_from_text extractor system_prompt content)
      as [e|]; [|discriminate].
    injection E as <-.
    destruct (title_counts (document_title e)) eqn:Et; [exact Et|exact Hf]. }
  now rewrite Hdoc.
Qed.

(** X15. When files were found, the result is the deduplication of the
    documents of the files that could be read and whose answer was not
    [None], in the order of the files; the other files leave no trace. *)
Theorem process_markdown_files_deduplicates (extractor : SkillExtractor)
    (system_prompt : string) (md_files : list md_file) :
  md_files <> [] ->
  process_markdown_files extractor system_prompt md_files
  = deduplicate (documents_of extractor system_prompt md_files).
Proof.
  destruct md_files as [|f rest]; [congruence|]. intros _.
  unfold process_markdown_files, deduplicate.
  now rewrite fold_process_files.
Qed.

(** X16. When no file stem is empty or "Error", the number in the combined
    title is the number of files that could be read and whose answer was
    not [None]; a file whose call raised is counted, under its stem. *)
Theorem process_markdown_files_counts (extractor : SkillExtractor)
    (system_prompt : string) (md_files : list md_file) :
  md_files <> [] ->
  Forall (fun f => title_counts (stem f) = true) md_files ->
  document_title (process_markdown_files extractor system_prompt md_files)
  = ("Combined skills from "
       ++ str_of_nat
            (List.length
               (filter (reaches_deduplicator extractor system_prompt)
                       md_files))
       ++ " documents")%string.
Proof.
  intros Hne Hstems.
  destruct md_files as [|f rest]; [congruence|].
  unfold process_markdown_files, get_deduplicated_skills.
  cbn [document_title]. rewrite fold_process_files, fold_titles.
  destruct (documents_of_titles extractor system_prompt (f :: rest) Hstems)
    as [H1 H2].
  cbn [document_titles new_deduplicator app]. now rewrite H1, length_map, H2.
Qed.

Example process_demo :
  process_markdown_files demo_extractor "system" demo_files
  = mkExtracted [mkTech "Python" "Language"] []
                "Combined skills from 3 documents".
Proof. vm_compute. reflexivity. Qed.

Lemma process_counts_demo :
  document_title (process_markdown_files demo_extractor "system" demo_files)
  = ("Combined skills from "
       ++ str_of_nat
            (List.length
               (filter (reaches_deduplicator demo_extractor "system")
                       demo_files))
       ++ " documents")%string.
Proof.
  apply process_markdown_files_counts.
  - discriminate.
  - repeat constructor.
Defined.

Lemma process_deduplicates_demo :
  process_markdown_files demo_extractor "system" demo_files
  = deduplicate (documents_of demo_extractor "system" demo_files).
Proof.
  apply process_markdown_files_deduplicates. discriminate.
Defined.

End ParseToJson.

(* ================================================================== *)
(** ** [main.py]: cleaning the extracted syllabus content *)
(* ================================================================== *)

Module MainPy.
Import PyStr.

(** [c in chars] *)
Definition in_chars (chars : string) (c : ascii) : bool :=
  negb (lacks c chars).

(** [s.lstrip(chars)] *)
Fixpoint lstrip_chars (chars : string) (s : string) : string :=
  match s with
  | EmptyString => EmptyString
  | String c s' => if in_chars chars c then lstrip_chars chars s' else s
  end.

(** [s.rstrip(chars)] *)
Fixpoint rstrip_chars (chars : string) (s : string) : string :=
  match s with
  | EmptyString => EmptyString
  | String c s' =>
      match rstrip_chars chars s' with
      | EmptyString =>
          if in_chars chars c then EmptyString else String c EmptyString
      | r => String c r
      end
  end.

(** [s.strip(chars)] *)
Definition strip_chars (chars : string) (s : string) : string :=
  rstrip_chars chars (lstrip_chars chars s).

(** [s.split()]: the maximal runs of characters that are not white
    space. *)
Fixpoint split_ws (s : string) : list string :=
  match s with
  | EmptyString => []
  | String c s' =>
      if isspace c then split_ws s'
      else match s' with
           | EmptyString => [String c EmptyString]
           | String d _ =>
               if isspace d then String c EmptyString :: split_ws s'
               else match split_ws s' with
                    | w :: ws => String c w :: ws
                    | [] => [String c EmptyString]
                    end
           end
  end.

(** [sep.join(l)] *)
Fixpoint join (sep : string) (l : list string) : string :=
  match l with
  | [] => EmptyString
  | x :: rest =>
      match rest with
      | [] => x
      | _ :: _ => (x ++ sep ++ join sep rest)%string
      end
  end.

(** The argument of the second [strip]: a double quote and a comma. *)
Definition JUNK : string :=
  String (ascii_of_nat 34) (String (ascii_of_nat 44) EmptyString).

(** The two cleaning lines of the inner loop: [content.strip()], then
    [.strip(JUNK)], then the words of [.split()] joined by one space. *)
Definition clean_content (content : string) : string :=
  join " " (split_ws (strip_chars JUNK (strip content))).

(** Two line feeds, the separator of the blocks. *)
Definition BLANK_LINE : string :=
  String (ascii_of_nat 10) (String (ascii_of_nat 10) EmptyString).

(** A word: not empty, without white space. *)
Definition word (w : string) : Prop :=
  w <> EmptyString /\ all_chars (fun c => negb (isspace c)) w = true.

(** A block in normal form: words separated by single spaces. *)
Definition normalized (b : string) : Prop :=
  b <> EmptyString
  /\ strip b = b
  /\ join " " (split_ws b) = b
  /\ all_chars (fun c => negb (isspace c) || Ascii.eqb c " ") b = true.

Section Extract.

(** [re.findall] with the pattern of the sections and with the pattern
    of the contents of a section (each has one group; the patterns
    differ between the Polish and the English function). *)
Variable findall_sections : string -> list string.
Variable findall_contents : string -> list string.

(** The list [extracted_data] that both [extract_polish_content] and
    [extract_english_content] build. *)
Definition extracted_data (text : string) : list string :=
  flat_map
    (fun section =>
       filter truthy (map clean_content (findall_contents section)))
    (findall_sections text).

(** What either function returns. *)
Definition extract_content (text : string) : string :=
  join BLANK_LINE (extracted_data text).

(** *** Words and their joins *)

Lemma all_chars_app (p : ascii -> bool) (a b : string) :
  all_chars p (a ++ b) = all_chars p a && all_chars p b.
Proof.
  induction a as [|c a IH]; simpl; [reflexivity|].
  now rewrite IH, andb_assoc.
Qed.

Lemma split_ws_words (s : string) : Forall word (split_ws s).
Proof.
  induction s as [|c s IH]; simpl; [constructor|].
  destruct (isspace c) eqn:Ec; [exact IH|].
  assert (Hc : word (String c EmptyString)).
  { split; [discriminate|]. simpl. now rewrite Ec. }
  destruct s as [|d s']; [constructor; [exact Hc|constructor]|].
  destruct (isspace d) eqn:Ed; [constructor; [exact Hc|exact IH]|].
  destruct (split_ws (String d s')) as [|w ws];
    [constructor; [exact Hc|constructor]|].
  inversion IH as [|? ? [Hw1 Hw2] Hws]; subst.
  constructor; [|exact Hws]. split; [discriminate|].
  simpl. now rewrite Ec, Hw2.
Qed.

(** A word followed by a space and more text is split off whole. *)
Lemma split_ws_word_space (w t : string) :
  word w ->
  split_ws (w ++ String " " t) = w :: split_ws t.
Proof.
  intros [Hne Hall]. induction w as [|c w IH]; [congruence|].
  simpl in Hall. apply andb_true_iff in Hall. destruct Hall as [Hc Hw].
  apply negb_true_iff in Hc.
  destruct w as [|d w'].
  - simpl. now rewrite Hc.
  - assert (Hd : isspace d = false).
    { simpl in Hw. apply andb_true_iff in Hw. destruct Hw as [Hd _].
      now apply negb_true_iff in Hd. }
    specialize (IH ltac:(discriminate) Hw).
    change ((String c (String d w') ++ String " " t)%string)
      with (String c (String d w' ++ String " " t)%string).
    change (String d w' ++ String " " t)%string
      with (String d (w' ++ String " " t)%string) in *.
    cbn [split_ws]. rewrite Hc, Hd.
    cbn [split_ws] in IH. rewrite Hd in IH.
    now rewrite IH.
Qed.

Lemma split_ws_word (w : string) : word w -> split_ws w = [w].
Proof.
  intros [Hne Hall]. induction w as [|c w IH]; [congruence|].
  simpl in Hall. apply andb_true_iff in Hall. destruct Hall as [Hc Hw].
  apply negb_true_iff in Hc. cbn [split_ws]. rewrite Hc.
  destruct w as [|d w']; [reflexivity|].
  assert (Hd : isspace d = false).
  { simpl in Hw. apply andb_true_iff in Hw. destruct Hw as [Hd _].
    now apply negb_true_iff in Hd. }
  rewrite Hd. now rewrite (IH ltac:(discriminate) Hw).
Qed.

(** Splitting a join of words gives the words back. *)
Lemma split_ws_join (ws : list string) :
  Forall word ws -> split_ws (join " " ws) = ws.
Proof.
  induction 1 as [|w ws Hw Hws IH]; [reflexivity|].
  destruct ws as [|w2 ws]; [now apply split_ws_word|].
  change (join " " (w :: w2 :: ws))
    with (w ++ String " " (join " " (w2 :: ws)))%string.
  now rewrite split_ws_word_space, IH.
Qed.

Lemma word_first (w : string) : word w -> not_space (first_char w).
Proof.
  intros [Hne Hall]. destruct w as [|c w]; [exact I|]. simpl in *.
  apply andb_true_iff in Hall. destruct Hall as [Hc _].
  now apply negb_true_iff in Hc.
Qed.

Lemma word_last (w : string) : word w -> not_space (last_char w).
Proof.
  intros [_ Hall]. induction w as [|c w IH]; [exact I|].
  simpl in Hall. apply andb_true_iff in Hall. destruct Hall as [Hc Hw].
  apply negb_true_iff in Hc. specialize (IH Hw). simpl.
  destruct (last_char w); [exact IH|exact Hc].
Qed.

Lemma first_char_app (a b : string) :
  a <> EmptyString -> first_char (a ++ b) = first_char a.
Proof. destruct a; [congruence|reflexivity]. Qed.

Lemma last_char_some (s : string) :
  s <> EmptyString -> exists c, last_char s = Some c.
Proof.
  induction s as [|c s IH]; [congruence|]. intros _. simpl.
  destruct s as [|d s']; [now exists c|].
  destruct IH as [e He]; [discriminate|]. rewrite He. now exists e.
Qed.

Lemma last_char_cons (c : ascii) (s : string) :
  s <> EmptyString -> last_char (String c s) = last_char s.
Proof.
  intros Hs. destruct (last_char_some s Hs) as [e He].
  cbn [last_char]. now rewrite He.
Qed.

Lemma last_char_app (a b : string) :
  b <> EmptyString -> last_char (a ++ b) = last_char b.
Proof.
  intros Hb. induction a as [|c a IH]; [reflexivity|].
  simpl. rewrite IH.
  destruct (last_char_some b Hb) as [e He]. now rewrite He.
Qed.

Lemma join_words (ws : list string) :
  Forall word ws -> ws <> [] ->
  join " " ws <> EmptyString
  /\ not_space (first_char (join " " ws))
  /\ not_space (last_char (join " " ws))
  /\ all_chars (fun c => negb (isspace c) || Ascii.eqb c " ")
               (join " " ws) = true.
Proof.
  induction 1 as [|w ws Hw Hws IH]; [congruence|]. intros _.
  assert (Hwc : all_chars (fun c => negb (isspace c) || Ascii.eqb c " ")
                          w = true).
  { destruct Hw as [_ Hall]. clear -Hall.
    induction w as [|c w IHw]; [reflexivity|]. simpl in *.
    apply andb_true_iff in Hall. destruct Hall as [Hc Hall].
    now rewrite Hc, IHw. }
  destruct ws as [|w2 ws].
  - simpl. split; [apply Hw|]. split; [now apply word_first|].
    split; [now apply word_last|exact Hwc].
  - destruct IH as [Hne [_ [Hlast Hall]]]; [discriminate|].
    change (join " " (w :: w2 :: ws))
      with (w ++ String " " (join " " (w2 :: ws)))%string.
    split.
    { destruct Hw as [Hwne _]. destruct w; [congruence|discriminate]. }
    split.
    { rewrite first_char_app by apply Hw. now apply word_first. }
    split.
    { rewrite last_char_app by discriminate.
      rewrite last_char_cons by exact Hne. exact Hlast. }
    rewrite all_chars_app, Hwc. simpl. exact Hall.
Qed.

(** A non-empty join of the words of any string is in normal form. *)
Lemma join_split_normalized (s : string) :
  join " " (split_ws s) <> EmptyString ->
  normalized (join " " (split_ws s)).
Proof.
  intros Hne. pose proof (split_ws_words s) as Hw.
  assert (Hnil : split_ws s <> []).
  { intros E. rewrite E in Hne. now apply Hne. }
  destruct (join_words (split_ws s) Hw Hnil) as [_ [Hf [Hl Hall]]].
  split; [exact Hne|]. split.
  - unfold strip. rewrite (lstrip_fix _ Hf). now apply rstrip_fix.
  - split; [|exact Hall]. now rewrite split_ws_join.
Qed.

(** X17. Every block that either extraction function keeps is not empty, has
    no white space at its ends, and is made of words separated by single
    spaces: no line feed, no tab, no run of spaces. *)
Theorem extracted_blocks_normalized (text : string) :
  Forall normalized (extracted_data text).
Proof.
  unfold extracted_data. apply Forall_flat_map, Forall_forall.
  intros section _. apply Forall_forall. intros b Hb.
  apply filter_In in Hb. destruct Hb as [Hin Ht].
  apply in_map_iff in Hin. destruct Hin as [content [<- _]].
  apply join_split_normalized. now apply truthy_true.
Qed.

End Extract.

Example clean_quoted :
  clean_content
    (String (ascii_of_nat 10)
       (String (ascii_of_nat 34) "  zna   metody,  analizy  ,"))
  = "zna metody, analizy".
Proof. reflexivity. Qed.

End MainPy.
